(** * mongoutil: a shallow embedding of the MongoDB data provider

    The Go package [mongoutil] adapts the [mgo] driver to the data-provider
    interface of the rihtim request framework.  This development embeds the
    parts of the package that carry logic of their own: the retry loop, the
    extraction of query parameters, the CRUD operations and the input
    interceptor.

    Conventions of the embedding:
    - Go's [int] is a 64-bit two's complement integer, kept in [Z] with the
      wrap-around written out ([wrap64]); [int32] likewise ([wrap32]).
    - [float64] is an IEEE-754 binary64 value, kept as a [spec_float].
    - [map[string]interface{}] is a [gmap string value]; a map that may be
      [nil] is an [option] of it, [None] being the nil map.
    - A [[]string] is a [string_slice]: the nil slice or a list.
    - A run-time panic is the [Panicked] outcome.
    - The driver, the JSON decoder, the clock and the object-id generator
      are outside the package: they are parameters. *)

From Stdlib Require Import ZArith String List Lia.
From Stdlib Require Import Floats.SpecFloat.
From stdpp Require Import gmap strings list fin_maps.
From Equations Require Import Equations.

Set Warnings "-register-all".
Local Open Scope string_scope.
Local Open Scope Z_scope.

(** ** Machine integers *)

Definition wrap64 (z : Z) : Z := (z + 2 ^ 63) mod 2 ^ 64 - 2 ^ 63.
Definition wrap32 (z : Z) : Z := (z + 2 ^ 31) mod 2 ^ 32 - 2 ^ 31.

Definition minInt : Z := - 2 ^ 63.
Definition maxInt : Z := 2 ^ 63 - 1.

(** [a + b] and [a - b] on Go's [int]. *)
Definition add64 (a b : Z) : Z := wrap64 (a + b).
Definition sub64 (a b : Z) : Z := wrap64 (a - b).

(** ** Values *)

(** A Go value held in an [interface{}], as far as the package handles
    them: what [encoding/json] decodes into an [interface{}], the [int32]
    time stamps the package writes, and the list of documents a query
    returns ([[]map[string]interface{}]). *)
Inductive value : Type :=
| VNil
| VBool (b : bool)
| VFloat64 (f : spec_float)
| VInt32 (n : Z)
| VString (s : string)
| VSlice (l : list value)
| VMap (m : gmap string value)
| VMaps (l : list (gmap string value)).

(** [reflect.Kind], for the values above. *)
Inductive Kind : Type :=
| KBool | KInt32 | KFloat64 | KString | KSlice | KMap.

(** [reflect.TypeOf(v)] followed by [Kind()]; [None] is the nil type that
    [reflect.TypeOf] returns for a nil interface. *)
Definition TypeOf (v : value) : option Kind :=
  match v with
  | VNil => None
  | VBool _ => Some KBool
  | VFloat64 _ => Some KFloat64
  | VInt32 _ => Some KInt32
  | VString _ => Some KString
  | VSlice _ => Some KSlice
  | VMap _ => Some KMap
  | VMaps _ => Some KSlice
  end.

#[export] Instance Kind_eq_dec : EqDecision Kind.
Proof. solve_decision. Defined.

(** [fieldType == nil || fieldType.Kind() != k] *)
Definition nil_or_other_kind (fieldType : option Kind) (k : Kind) : bool :=
  match fieldType with
  | None => true
  | Some k' => negb (bool_decide (k' = k))
  end.

(** [float64(n)] for an integer [n]: rounding to the nearest binary64. *)
Definition float64_of_int (n : Z) : spec_float :=
  binary_normalize 53 1024 n 0 false.

(** [int32(n)] for an [int64] [n]. *)
Definition int32_of_int (n : Z) : Z := wrap32 n.

(** The integer part of a finite float (rounding toward zero); [None] for
    infinities and NaN. *)
Definition float64_trunc (f : spec_float) : option Z :=
  match f with
  | S754_zero _ => Some 0
  | S754_finite sign m e =>
      let n := if sign then Z.neg m else Z.pos m in
      Some (if 0 <=? e then n * 2 ^ e else Z.quot n (2 ^ (- e)))
  | S754_infinity _ => None
  | S754_nan => None
  end.

(** Numeric order on the time stamps the package writes. *)
Definition value_float (v : value) : option spec_float :=
  match v with
  | VFloat64 f => Some f
  | VInt32 n => Some (float64_of_int n)
  | _ => None
  end.

Definition value_ltb (a b : value) : bool :=
  match value_float a, value_float b with
  | Some x, Some y => SFltb x y
  | _, _ => false
  end.

(** A [[]string]: the nil slice or a slice with elements. *)
Inductive string_slice : Type :=
| NilSlice
| Slice (elems : list string).

(** [s != nil] *)
Definition slice_not_nil (s : string_slice) : bool :=
  match s with
  | NilSlice => false
  | Slice _ => true
  end.

(** ** Outcomes *)

(** What a call comes to: it returns, or it panics. *)
Inductive outcome (A : Type) : Type :=
| Returned (a : A)
| Panicked (reason : string).
Arguments Returned {A} a.
Arguments Panicked {A} reason.

#[export] Instance outcome_ret : MRet outcome := fun A a => Returned a.
#[export] Instance outcome_bind : MBind outcome := fun A B k m =>
  match m with
  | Returned a => k a
  | Panicked reason => Panicked reason
  end.

(** [s[0]] *)
Definition slice_first (s : string_slice) : outcome string :=
  match s with
  | Slice (x :: _) => Returned x
  | _ => Panicked "index out of range"
  end.

(** The type assertions [v.(string)] and [v.(float64)]. *)
Definition assert_string (v : value) : outcome string :=
  match v with
  | VString s => Returned s
  | _ => Panicked "interface conversion: interface {} is not string"
  end.

Definition assert_float64 (v : value) : outcome spec_float :=
  match v with
  | VFloat64 f => Returned f
  | _ => Panicked "interface conversion: interface {} is not float64"
  end.

(** [m[k]] with the comma-ok form, on a map that may be nil. *)
Definition map_index {V : Type} (m : option (gmap string V)) (k : string)
    : option V :=
  match m with
  | Some m => m !! k
  | None => None
  end.

(** ** Constants *)

Definition ID : string := "_id".
Definition CreatedAt : string := "createdAt".
Definition UpdatedAt : string := "updatedAt".

(** The field used to return lists. *)
Definition List : string := "results".

Definition StatusBadRequest : Z := 400.
Definition StatusNotFound : Z := 404.
Definition StatusInternalServerError : Z := 500.

(** ** Errors and log entries *)

(** [utils.Error] of the framework: a status code and a message. *)
Record Error : Type := mkError {
  Code : Z;
  Message : string
}.

(** A driver error (Go's [error] interface).  [mgo.ErrNotFound] is a
    package-level value that the code compares by identity; every other
    error is known here only by its text. *)
Inductive error : Type :=
| ErrNotFound
| ErrDriver (reason : string).

(** [err.Error()] *)
Definition error_text (e : error) : string :=
  match e with
  | ErrNotFound => "not found"
  | ErrDriver reason => reason
  end.

(** [err == mgo.ErrNotFound] *)
Definition is_ErrNotFound (e : error) : bool :=
  match e with
  | ErrNotFound => true
  | ErrDriver _ => false
  end.

(** A value of a logrus field. *)
Inductive log_value : Type :=
| LText (s : string)
| LInt (n : Z)
| LData (data : option (gmap string value))
| LParameters (parameters : gmap string string_slice).

(** One call of [log.WithFields(fields).Error(message)]. *)
Record LogEntry : Type := mkLogEntry {
  log_fields : list (string * log_value);
  log_message : string
}.

(** ** retry *)

Section Retry.
(** The state that the retried closure reads and writes: the connection
    and the variables it captures. *)
Context {St : Type}.

(** The [for i := 0; ; i++] loop of [retry] together with the two
    statements after it, which run only when the loop is left by [break].
    [log] collects the entries written so far. *)
Equations? retry_loop (attempts : Z) (function : St -> option error * St)
    (i : Z) (s : St) (log : list LogEntry)
    : option error * St * list LogEntry
    by wf (Z.to_nat (sub64 attempts 1 - i)) lt :=
  retry_loop attempts function i s log with function s := {
    | (None, s') := (None, s', log);
    | (Some err, s') with is_ErrNotFound err := {
        | true := (Some err, s', log);
        | false with Z_ge_dec i (sub64 attempts 1) := {
            | left _ :=
                (Some err, s',
                 (log ++ [mkLogEntry [("reason", LText (error_text err));
                                      ("attempt", LInt attempts)]
                           "Mongo Error: Last attempt failed. Not retrying."])%list);
            | right _ :=
                retry_loop attempts function (add64 i 1) s'
                  (log ++ [mkLogEntry [("reason", LText (error_text err));
                                       ("attempt", LInt (add64 i 1))]
                            "Mongo Error: Attempt failed. Retrying."])%list } } }.
Proof.
  assert (Hm : sub64 attempts 1 <= 2 ^ 63 - 1).
  { unfold sub64, wrap64.
    pose proof (Z.mod_pos_bound (attempts - 1 + 2 ^ 63) (2 ^ 64)). lia. }
  assert (Hi : i < add64 i 1).
  { unfold add64, wrap64.
    pose proof (Z.mod_pos_bound (i + 1 + 2 ^ 63) (2 ^ 64)).
    destruct (Z_lt_dec i (- 2 ^ 63)) as [Hlow | Hlow]; [lia |].
    rewrite Z.mod_small by lia. lia. }
  lia.
Qed.

Definition retry (attempts : Z) (function : St -> option error * St)
    (s : St) (log : list LogEntry) : option error * St * list LogEntry :=
  retry_loop attempts function 0 s log.

End Retry.

(** A closure whose successive results are read off a script; once the
    script is used up it succeeds. *)
Definition scripted (script : list (option error))
    : option error * list (option error) :=
  match script with
  | [] => (None, [])
  | r :: rest => (r, rest)
  end.

(** [observed function] behaves as [function] and records the result of
    every call, in order. *)
Definition observed {St : Type} (function : St -> option error * St)
    (st : St * list (option error))
    : option error * (St * list (option error)) :=
  let '(r, s') := function (fst st) in (r, (s', (snd st ++ [r])%list)).

(** ** The driver *)

(** The calls the package makes on a collection of the [mgo] driver.  The
    first argument is the collection name; [Conn] is everything the driver
    and the database hold.  A call that decodes into a variable returns
    the decoded value instead ([inr]), or the error ([inl]); a list of
    documents may come back as the nil slice ([None]). *)
Class Driver (Conn : Type) : Type := {
  Insert : string -> gmap string value -> Conn -> option error * Conn;
  FindId_One : string -> string -> Conn
               -> (error + gmap string value) * Conn;
  UpdateId : string -> string -> gmap string value -> Conn
             -> option error * Conn;
  RemoveId : string -> string -> Conn -> option error * Conn;
  Find_All : string -> value -> Z -> Z -> option string -> Conn
             -> (error + option (list (gmap string value))) * Conn;
  Pipe_All : string -> value -> Conn
             -> (error + option (list (gmap string value))) * Conn
}.

(** What an operation can change: the driver's state and the log. *)
Record World (Conn : Type) : Type := mkWorld {
  conn : Conn;
  journal : list LogEntry
}.
Arguments mkWorld {Conn} conn journal.
Arguments conn {Conn} w.
Arguments journal {Conn} w.

(** [log.WithFields(fields).Error(message)]; [log.Error(message)] is the
    case of no fields. *)
Definition log_error {Conn : Type} (fields : list (string * log_value))
    (message : string) (w : World Conn) : World Conn :=
  mkWorld (conn w) (journal w ++ [mkLogEntry fields message])%list.

(** What the operation reads from its surroundings: [time.Now().Unix()]
    and the text of [bson.NewObjectId().Hex()]. *)
Record Env : Type := mkEnv {
  now_unix : Z;
  new_object_id : string
}.

(** [if e != nil { err = e }] *)
Definition overwrite (e err : option Error) : option Error :=
  match e with
  | Some _ => e
  | None => err
  end.

(** ** Parameter extraction *)

Section Extraction.
(** [json.Unmarshal([]byte(text), &v)] for a nil [v interface{}]: the
    value left in [v] and the text of the error, if any. *)
Variable json_unmarshal : string -> value * option string.

(** [int(f)] where the integer part of [f] is not an [int]: the language
    leaves the result to the implementation. *)
Variable int_of_unrepresentable : spec_float -> Z.

(** [int(f)] *)
Definition int_of_float64 (f : spec_float) : Z :=
  match float64_trunc f with
  | Some n =>
      if (minInt <=? n) && (n <=? maxInt) then n
      else wrap64 (int_of_unrepresentable f)
  | None => wrap64 (int_of_unrepresentable f)
  end.

(** [paramArray, hasParam = parameters[key]] *)
Definition lookup_parameter (parameters : gmap string string_slice)
    (key : string) : string_slice * bool :=
  match parameters !! key with
  | Some paramArray => (paramArray, true)
  | None => (NilSlice, false)
  end.

Definition extractJsonParameter (parameters : gmap string string_slice)
    (key : string) : outcome (value * bool * option Error) :=
  let '(paramArray, hasParam) := lookup_parameter parameters key in
  if hasParam then
    text ← slice_first paramArray;
    let '(value, parseErr) := json_unmarshal text in
    match parseErr with
    | Some reason =>
        Returned (value, hasParam,
                  Some (mkError StatusBadRequest
                          ("Parsing " ++ key
                           ++ " parameter failed. Reason: " ++ reason)))
    | None => Returned (value, hasParam, None)
    end
  else Returned (VNil, hasParam, None).

Definition extractStringParameter (parameters : gmap string string_slice)
    (key : string) : outcome (string * bool * option Error) :=
  let '(paramArray, hasParam) := lookup_parameter parameters key in
  if hasParam then
    text ← slice_first paramArray;
    let '(paramValue, parseErr) := json_unmarshal text in
    let err :=
      match parseErr with
      | Some reason =>
          Some (mkError StatusBadRequest
                  ("Parsing " ++ key
                   ++ " parameter failed. Reason: " ++ reason))
      | None => None
      end in
    let fieldType := TypeOf paramValue in
    if nil_or_other_kind fieldType KString then
      Returned ("", hasParam,
                Some (mkError StatusBadRequest
                        ("The key '" ++ key ++ "' must be a valid string.")))
    else
      s ← assert_string paramValue;
      Returned (s, hasParam, err)
  else Returned ("", hasParam, None).

Definition extractIntParameter (parameters : gmap string string_slice)
    (key : string) : outcome (Z * bool * option Error) :=
  let '(paramArray, hasParam) := lookup_parameter parameters key in
  if hasParam then
    text ← slice_first paramArray;
    let '(paramValue, parseErr) := json_unmarshal text in
    let err :=
      match parseErr with
      | Some reason =>
          Some (mkError StatusBadRequest
                  ("Parsing " ++ key
                   ++ " parameter failed. Reason: " ++ reason))
      | None => None
      end in
    let fieldType := TypeOf paramValue in
    if nil_or_other_kind fieldType KFloat64 then
      Returned (0, hasParam,
                Some (mkError StatusBadRequest
                        ("The key '" ++ key ++ "' must be an integer.")))
    else
      f ← assert_float64 paramValue;
      Returned (int_of_float64 f, hasParam, err)
  else Returned (0, hasParam, None).

End Extraction.

(** ** The data provider *)

Section Provider.
Context {Conn : Type} `{Driver Conn}.
Variable json_unmarshal : string -> value * option string.
Variable int_of_unrepresentable : spec_float -> Z.

(** What an operation hands back: [response], [err] and the world it
    leaves. *)
Definition reply (A : Type) : Type := (A * option Error * World Conn)%type.

(** [data] is the caller's map and the assignments are made in it.  On
    the nil map the test for [ID] finds nothing and the assignment that
    follows panics. *)
Definition Create (env : Env) (collection : string)
    (data : option (gmap string value)) (w : World Conn)
    : outcome (reply (option (gmap string value))) :=
  let createdAt := float64_of_int (now_unix env) in
  match data with
  | None => Panicked "assignment to entry in nil map"
  | Some data =>
      let data :=
        if bool_decide (is_Some (data !! ID)) then data
        else <[ID := VString (new_object_id env)]> data in
      let data := <[CreatedAt := VFloat64 createdAt]> data in
      let data := <[UpdatedAt := VFloat64 createdAt]> data in
      let '(insertError, c, lg) :=
        retry 5 (fun c => Insert collection data c) (conn w) (journal w) in
      match insertError with
      | Some e =>
          Returned (None,
                    Some (mkError StatusInternalServerError (error_text e)),
                    log_error [("reason", LText (error_text e));
                               ("collection", LText collection);
                               ("data", LData (Some data))]
                      "Mongo Error: Inserting item failed." (mkWorld c lg))
      | None =>
          Returned (Some (<[ID := default VNil (data !! ID)]>
                           (<[CreatedAt := VFloat64 createdAt]>
                             (<[UpdatedAt := VFloat64 createdAt]> ∅))),
                    None, mkWorld c lg)
      end
  end.

Definition Get (collection : string) (id : string) (w : World Conn)
    : outcome (reply (option (gmap string value))) :=
  let response : gmap string value := ∅ in
  let '(getErr, (c, response), lg) :=
    retry 5 (fun '(c, response) =>
               match FindId_One collection id c with
               | (inl e, c') => (Some e, (c', response))
               | (inr found, c') => (None, (c', found))
               end)
      (conn w, response) (journal w) in
  match getErr with
  | Some e =>
      let err :=
        if is_ErrNotFound e then
          mkError StatusNotFound
            ("'" ++ collection ++ "' with id '" ++ id ++ "' not found.")
        else
          mkError StatusInternalServerError
            ("Getting '" ++ collection ++ "' with id '" ++ id
             ++ "' failed.") in
      Returned (None, Some err,
                log_error [("reason", LText (error_text e));
                           ("collection", LText collection);
                           ("id", LText id)]
                  "Mongo Error: Getting item failed." (mkWorld c lg))
  | None => Returned (Some response, None, mkWorld c lg)
  end.

(** [parameters] is only read, so the nil map and the empty map behave
    alike and both are the empty [gmap]. *)
Definition Query (collection : string)
    (parameters : gmap string string_slice) (w : World Conn)
    : outcome (reply (option (gmap string value))) :=
  let response : gmap string value := ∅ in
  if slice_not_nil (default NilSlice (parameters !! "aggregate"))
     && slice_not_nil (default NilSlice (parameters !! "where"))
  then
    Returned (Some response,
              Some (mkError StatusBadRequest
                      "Where and aggregate parameters cannot be used at the same request."),
              log_error []
                "Mongo Error: Where and aggregate parameters cannot be used at the same request."
                w)
  else
    '(whereParam, hasWhereParam, whereParamErr) ←
      extractJsonParameter json_unmarshal parameters "where";
    '(aggregateParam, hasAggregateParam, aggregateParamErr) ←
      extractJsonParameter json_unmarshal parameters "aggregate";
    '(sortParam, hasSortParam, sortParamErr) ←
      extractStringParameter json_unmarshal parameters "sort";
    '(limitParam, _, limitParamErr) ←
      extractIntParameter json_unmarshal int_of_unrepresentable
        parameters "limit";
    '(skipParam, _, skipParamErr) ←
      extractIntParameter json_unmarshal int_of_unrepresentable
        parameters "skip";
    let err := None in
    let err := overwrite aggregateParamErr err in
    let err := overwrite whereParamErr err in
    let err := overwrite sortParamErr err in
    let err := overwrite limitParamErr err in
    let err := overwrite skipParamErr err in
    match err with
    | Some _ => Returned (Some response, err, w)
    | None =>
        if hasWhereParam && hasAggregateParam then
          Returned (Some response,
                    Some (mkError StatusInternalServerError
                            "Aggregation cannot be used with where parameter."),
                    w)
        else
          let results : option (list (gmap string value)) := None in
          let '(getErr, (c, results), lg) :=
            if hasAggregateParam then
              retry 5 (fun '(c, results) =>
                         match Pipe_All collection aggregateParam c with
                         | (inl e, c') => (Some e, (c', results))
                         | (inr found, c') => (None, (c', found))
                         end)
                (conn w, results) (journal w)
            else
              let sort := if hasSortParam : bool then Some sortParam else None in
              retry 5 (fun '(c, results) =>
                         match Find_All collection whereParam skipParam
                                 limitParam sort c with
                         | (inl e, c') => (Some e, (c', results))
                         | (inr found, c') => (None, (c', found))
                         end)
                (conn w, results) (journal w) in
          match getErr with
          | Some e =>
              Returned (Some response,
                        Some (mkError StatusInternalServerError
                                ("Querying items from database failed. Reason: "
                                 ++ error_text e)),
                        log_error [("reason", LText (error_text e));
                                   ("collection", LText collection);
                                   ("parameters", LParameters parameters)]
                          "Mongo Error: Querying items failed."
                          (mkWorld c lg))
          | None =>
              let list :=
                match results with
                | Some found => VMaps found
                | None => VMaps []
                end in
              Returned (Some (<["results" := list]> response), None,
                        mkWorld c lg)
          end
    end.

(** The time stamp is assigned in [data], the caller's map, before the
    record is looked up. *)
Definition Update (env : Env) (collection : string) (id : string)
    (data : option (gmap string value)) (w : World Conn)
    : outcome (reply (option (gmap string value))) :=
  match data with
  | None =>
      Returned (None,
                Some (mkError StatusBadRequest
                        "Request body cannot be empty for update requests."),
                log_error []
                  "Mongo Error: Request body cannot be empty for update requests."
                  w)
  | Some data =>
      let data :=
        <[UpdatedAt := VInt32 (int32_of_int (now_unix env))]> data in
      match FindId_One collection id (conn w) with
      | (inl findErr, c) =>
          Returned (None, Some (mkError StatusNotFound "Item not found."),
                    mkWorld c (journal w))
      | (inr objectToUpdate, c) =>
          let objectToUpdate :=
            map_fold (fun k v object => <[k := v]> object)
              objectToUpdate data in
          match UpdateId collection id objectToUpdate c with
          | (Some updateErr, c) =>
              Returned (None,
                        Some (mkError StatusInternalServerError
                                ("Updating '" ++ collection ++ "' with id '"
                                 ++ id ++ "' failed.")),
                        log_error [("reason", LText (error_text updateErr));
                                   ("collection", LText collection);
                                   ("id", LText id)]
                          "Mongo Error: Updating item failed."
                          (mkWorld c (journal w)))
          | (None, c) =>
              Returned (Some {[UpdatedAt := default VNil (data !! UpdatedAt)]},
                        None, mkWorld c (journal w))
          end
      end
  end.

Definition Delete (collection : string) (id : string) (w : World Conn)
    : outcome (reply (option (gmap string value))) :=
  match RemoveId collection id (conn w) with
  | (Some removeErr, c) =>
      Returned (None,
                Some (mkError StatusNotFound
                        ("Updating '" ++ collection ++ "' with id '" ++ id
                         ++ "' failed.")),
                log_error [("reason", LText (error_text removeErr));
                           ("collection", LText collection);
                           ("id", LText id)]
                  "Mongo Error: Updating item failed."
                  (mkWorld c (journal w)))
  | (None, c) => Returned (None, None, mkWorld c (journal w))
  end.

End Provider.

(** ** Configuration and connection *)

(** The fields of [mgo.DialInfo] that the package sets; the others keep
    their zero values. *)
Record DialInfo : Type := mkDialInfo {
  Addrs : string_slice;
  DialDatabase : string;
  DialUsername : string;
  DialPassword : string
}.

(** The zero [mgo.DialInfo]. *)
Definition zero_DialInfo : DialInfo := mkDialInfo NilSlice "" "" "".

(** The provider.  [Session] is the driver's [mgo.Session]; [session] is a
    pointer to one, [None] being nil. *)
Record DataProvider (Session : Type) : Type := mkDataProvider {
  Addresses : string_slice;
  Database : string;
  AuthDatabase : string;
  Username : string;
  Password : string;
  session : option Session;
  dialInfo : DialInfo
}.
Arguments mkDataProvider {Session}.
Arguments Addresses {Session} _.
Arguments Database {Session} _.
Arguments AuthDatabase {Session} _.
Arguments Username {Session} _.
Arguments Password {Session} _.
Arguments session {Session} _.
Arguments dialInfo {Session} _.

Section Connection.
Context {Session : Type}.

(** [mgo.DialWithInfo(&info)]: the session, nil on failure, and the
    error. *)
Variable DialWithInfo : DialInfo -> option Session * option error.

(** [Init] has a pointer receiver: the provider it leaves is returned
    beside the error. *)
Definition Init (ma : DataProvider Session)
    : DataProvider Session * option Error :=
  if negb (slice_not_nil (Addresses ma)) then
    (ma, Some (mkError StatusInternalServerError
                 "Database 'addresses' must be specified."))
  else
    (mkDataProvider (Addresses ma) (Database ma) (AuthDatabase ma)
       (Username ma) (Password ma) (session ma)
       (mkDialInfo (Addresses ma) (AuthDatabase ma) (Username ma)
          (Password ma)),
     None).

Definition Connect (ma : DataProvider Session) (journal : list LogEntry)
    : DataProvider Session * option Error * list LogEntry :=
  let '(dialed, dialErr) := DialWithInfo (dialInfo ma) in
  let ma :=
    mkDataProvider (Addresses ma) (Database ma) (AuthDatabase ma)
      (Username ma) (Password ma) dialed (dialInfo ma) in
  match dialErr with
  | Some e =>
      (ma,
       Some (mkError StatusInternalServerError "Database connection failed."),
       (journal ++ [mkLogEntry [("reason", LText (error_text e))]
                      "Mongo Error: Connection failed."])%list)
  | None => (ma, None, journal)
  end.

End Connection.

(** ** Files *)

(** The calls the package makes on the driver's GridFS.  [File] is an open
    [mgo.GridFile]; [Stream] is the [io.ReadCloser] handed to
    [CreateFile]. *)
Class FileStore (Conn File Stream : Type) : Type := {
  (** [GridFS("fs").Create(name)] *)
  GridFS_Create : string -> Conn -> (error + File) * Conn;
  (** [GridFS("fs").OpenId(id)] *)
  GridFS_OpenId : string -> Conn -> (error + File) * Conn;
  SetId : string -> File -> File;
  SetName : string -> File -> File;
  (** [SetUploadDate(now)], by the Unix time of [now] *)
  SetUploadDate : Z -> File -> File;
  (** [io.Copy(file, base64.NewDecoder(base64.StdEncoding, data))] *)
  Copy_base64 : File -> Stream -> Conn -> option error * File * Conn;
  (** [file.Close()] *)
  File_Close : File -> Conn -> option error * Conn;
  (** [file.Size()] *)
  File_Size : File -> Z;
  (** [file.Read(buffer)] on a buffer of the given length: the buffer as
      the call leaves it, and the error *)
  File_Read : File -> Z -> Conn -> list Byte.byte * option error * File * Conn
}.

Section Files.
Context {Conn File Stream : Type} `{FileStore Conn File Stream}.



End Files.

(** ** The provider without retries *)

(** The package holds a second copy of the provider that calls the driver
    once and writes no log.  Its [Delete] differs from the one above in
    the message only. *)
Module Plain.
Section Provider.
Context {Conn : Type} `{Driver Conn}.

Definition Delete (collection : string) (id : string) (w : World Conn)
    : outcome (option (gmap string value) * option Error * World Conn) :=
  match RemoveId collection id (conn w) with
  | (Some removeErr, c) =>
      Returned (None,
                Some (mkError StatusNotFound
                        ("Deleting item failed. Reason: "
                         ++ error_text removeErr)),
                mkWorld c (journal w))
  | (None, c) => Returned (None, None, mkWorld c (journal w))
  end.

Variable json_unmarshal : string -> value * option string.
Variable int_of_unrepresentable : spec_float -> Z.

Definition Create (env : Env) (collection : string)
    (data : option (gmap string value)) (w : World Conn)
    : outcome (option (gmap string value) * option Error * World Conn) :=
  let createdAt := float64_of_int (now_unix env) in
  match data with
  | None => Panicked "assignment to entry in nil map"
  | Some data =>
      let data :=
        if bool_decide (is_Some (data !! ID)) then data
        else <[ID := VString (new_object_id env)]> data in
      let data := <[CreatedAt := VFloat64 createdAt]> data in
      let data := <[UpdatedAt := VFloat64 createdAt]> data in
      match Insert collection data (conn w) with
      | (Some insertError, c) =>
          Returned (None,
                    Some (mkError StatusInternalServerError
                            ("Inserting item to database failed: "
                             ++ error_text insertError)),
                    mkWorld c (journal w))
      | (None, c) =>
          Returned (Some (<[ID := default VNil (data !! ID)]>
                           (<[CreatedAt := VFloat64 createdAt]>
                             (<[UpdatedAt := VFloat64 createdAt]> ∅))),
                    None, mkWorld c (journal w))
      end
  end.

Definition Get (collection : string) (id : string) (w : World Conn)
    : outcome (option (gmap string value) * option Error * World Conn) :=
  match FindId_One collection id (conn w) with
  | (inl getErr, c) =>
      Returned (None,
                Some (mkError StatusNotFound
                        ("Object from '" ++ collection ++ "' with id '" ++ id
                         ++ "' not found.")),
                mkWorld c (journal w))
  | (inr response, c) => Returned (Some response, None, mkWorld c (journal w))
  end.

Definition Query (collection : string)
    (parameters : gmap string string_slice) (w : World Conn)
    : outcome (option (gmap string value) * option Error * World Conn) :=
  let response : gmap string value := ∅ in
  if slice_not_nil (default NilSlice (parameters !! "aggregate"))
     && slice_not_nil (default NilSlice (parameters !! "where"))
  then
    Returned (Some response,
              Some (mkError StatusBadRequest
                      "Where and aggregate parameters cannot be used at the same request."),
              w)
  else
    '(whereParam, hasWhereParam, whereParamErr) ←
      extractJsonParameter json_unmarshal parameters "where";
    '(aggregateParam, hasAggregateParam, aggregateParamErr) ←
      extractJsonParameter json_unmarshal parameters "aggregate";
    '(sortParam, hasSortParam, sortParamErr) ←
      extractStringParameter json_unmarshal parameters "sort";
    '(limitParam, _, limitParamErr) ←
      extractIntParameter json_unmarshal int_of_unrepresentable
        parameters "limit";
    '(skipParam, _, skipParamErr) ←
      extractIntParameter json_unmarshal int_of_unrepresentable
        parameters "skip";
    let err := None in
    let err := overwrite aggregateParamErr err in
    let err := overwrite whereParamErr err in
    let err := overwrite sortParamErr err in
    let err := overwrite limitParamErr err in
    let err := overwrite skipParamErr err in
    match err with
    | Some _ => Returned (Some response, err, w)
    | None =>
        if hasWhereParam && hasAggregateParam then
          Returned (Some response,
                    Some (mkError StatusInternalServerError
                            "Aggregation cannot be used with where parameter."),
                    w)
        else
          let '(found, c) :=
            if hasAggregateParam then
              Pipe_All collection aggregateParam (conn w)
            else
              let sort := if hasSortParam : bool then Some sortParam else None in
              Find_All collection whereParam skipParam limitParam sort
                (conn w) in
          match found with
          | inl getErr =>
              Returned (Some response,
                        Some (mkError StatusInternalServerError
                                ("Getting items failed. Reason: "
                                 ++ error_text getErr)),
                        mkWorld c (journal w))
          | inr results =>
              let list :=
                match results with
                | Some found => VMaps found
                | None => VMaps []
                end in
              Returned (Some (<["results" := list]> response), None,
                        mkWorld c (journal w))
          end
    end.

Definition Update (env : Env) (collection : string) (id : string)
    (data : option (gmap string value)) (w : World Conn)
    : outcome (option (gmap string value) * option Error * World Conn) :=
  match data with
  | None =>
      Returned (None,
                Some (mkError StatusBadRequest
                        "Request body cannot be empty for update requests."),
                w)
  | Some data =>
      let data :=
        <[UpdatedAt := VInt32 (int32_of_int (now_unix env))]> data in
      match FindId_One collection id (conn w) with
      | (inl findErr, c) =>
          Returned (None, Some (mkError StatusNotFound "Item not found."),
                    mkWorld c (journal w))
      | (inr objectToUpdate, c) =>
          let objectToUpdate :=
            map_fold (fun k v object => <[k := v]> object)
              objectToUpdate data in
          match UpdateId collection id objectToUpdate c with
          | (Some updateErr, c) =>
              Returned (None,
                        Some (mkError StatusInternalServerError
                                "Update request to db failed."),
                        mkWorld c (journal w))
          | (None, c) =>
              Returned (Some {[UpdatedAt := default VNil (data !! UpdatedAt)]},
                        None, mkWorld c (journal w))
          end
      end
  end.

End Provider.

(** [Connect] of this copy puts the reason in the message and writes no
    log. *)
Definition Connect {Session : Type}
    (DialWithInfo : DialInfo -> option Session * option error)
    (ma : DataProvider Session) : DataProvider Session * option Error :=
  let '(dialed, dialErr) := DialWithInfo (dialInfo ma) in
  let ma :=
    mkDataProvider (Addresses ma) (Database ma) (AuthDatabase ma)
      (Username ma) (Password ma) dialed (dialInfo ma) in
  match dialErr with
  | Some e =>
      (ma,
       Some (mkError StatusInternalServerError
               ("Database connection failed. Reason: " ++ error_text e)))
  | None => (ma, None)
  end.

End Plain.

(** ** The input interceptor *)

Definition restrictedFields : list string := [ID; CreatedAt; UpdatedAt].

(** The loop of [ValidateInput] over the fields still to be checked, with
    what it leaves in [err]. *)
Fixpoint ValidateInput_loop (fields : list string)
    (body : option (gmap string value)) : option Error :=
  match fields with
  | [] => None
  | field :: fields =>
      if bool_decide (is_Some (map_index body field)) then
        Some (mkError StatusBadRequest
                ("Input cannot contain '" ++ field ++ "' field."))
      else ValidateInput_loop fields body
  end.

(** [body] is [req.Body].  The other results of the interceptor are never
    assigned and stay the zero values. *)
Definition ValidateInput (body : option (gmap string value)) : option Error :=
  ValidateInput_loop restrictedFields body.

(** ** Stand-ins used in the examples *)

(** A driver that keeps the documents in memory, by collection and id.
    [faults] is what the next calls run into: each call takes the head,
    fails with it if it is an error and does its work otherwise.  Queries
    and pipelines return every document of the collection. *)
Record MemDB : Type := mkMemDB {
  docs : gmap (string * string) (gmap string value);
  faults : list (option error)
}.

Definition next_fault (db : MemDB) : option error * MemDB :=
  match faults db with
  | [] => (None, db)
  | fault :: rest => (fault, mkMemDB (docs db) rest)
  end.

Definition mem_Insert (collection : string) (doc : gmap string value)
    (db : MemDB) : option error * MemDB :=
  match next_fault db with
  | (Some e, db) => (Some e, db)
  | (None, db) =>
      match doc !! ID with
      | Some (VString id) =>
          match docs db !! (collection, id) with
          | Some _ => (Some (ErrDriver "duplicate key"), db)
          | None =>
              (None, mkMemDB (<[(collection, id) := doc]> (docs db)) (faults db))
          end
      | _ => (Some (ErrDriver "unsupported id"), db)
      end
  end.

Definition mem_FindId_One (collection id : string) (db : MemDB)
    : (error + gmap string value) * MemDB :=
  match next_fault db with
  | (Some e, db) => (inl e, db)
  | (None, db) =>
      match docs db !! (collection, id) with
      | Some doc => (inr doc, db)
      | None => (inl ErrNotFound, db)
      end
  end.

Definition mem_UpdateId (collection id : string) (doc : gmap string value)
    (db : MemDB) : option error * MemDB :=
  match next_fault db with
  | (Some e, db) => (Some e, db)
  | (None, db) =>
      match docs db !! (collection, id) with
      | Some _ =>
          (None, mkMemDB (<[(collection, id) := doc]> (docs db)) (faults db))
      | None => (Some ErrNotFound, db)
      end
  end.

Definition mem_RemoveId (collection id : string) (db : MemDB)
    : option error * MemDB :=
  match next_fault db with
  | (Some e, db) => (Some e, db)
  | (None, db) =>
      match docs db !! (collection, id) with
      | Some _ => (None, mkMemDB (delete (collection, id) (docs db)) (faults db))
      | None => (Some ErrNotFound, db)
      end
  end.

Definition mem_all (collection : string) (db : MemDB)
    : (error + option (list (gmap string value))) * MemDB :=
  match next_fault db with
  | (Some e, db) => (inl e, db)
  | (None, db) =>
      (inr (Some (snd <$> filter (fun kv => fst (fst kv) = collection)
                          (map_to_list (docs db)))), db)
  end.

#[export] Instance MemDriver : Driver MemDB := {
  Insert := mem_Insert;
  FindId_One := mem_FindId_One;
  UpdateId := mem_UpdateId;
  RemoveId := mem_RemoveId;
  Find_All := fun collection _ _ _ _ => mem_all collection;
  Pipe_All := fun collection _ => mem_all collection
}.

(** The binary64 values nearest to 1.9 and to 1e300. *)
Definition float_1_9 : spec_float := S754_finite false 8556839292003942 (-52).
Definition float_1e300 : spec_float := S754_finite false 6724873095247260 944.

(** What [encoding/json] decodes a few texts to; every other text is
    refused here. *)
Definition sample_unmarshal (text : string) : value * option string :=
  if String.eqb text "5" then (VFloat64 (float64_of_int 5), None)
  else if String.eqb text "1.9" then (VFloat64 float_1_9, None)
  else if String.eqb text "1e300" then (VFloat64 float_1e300, None)
  else if String.eqb text "true" then (VBool true, None)
  else if String.eqb text "null" then (VNil, None)
  else if String.eqb text "[]" then (VSlice [], None)
  else if String.eqb text "{}" then (VMap ∅, None)
  else (VNil, Some "invalid character").

(** [int(f)] on amd64 for an [f] out of range: the instruction yields the
    least [int]. *)
Definition amd64_unrepresentable (f : spec_float) : Z := minInt.

Definition empty_world : World MemDB := mkWorld (mkMemDB ∅ []) [].

(** A reading of the clock and an object id, as the generator prints it. *)
Definition sample_env : Env := mkEnv 1700000000 "65544a00e1b2c3d4e5f60718".

(** The results of the attempts that [retry] makes, in order. *)
Definition attempts_made {St : Type} (attempts : Z)
    (function : St -> option error * St) (s : St) : list (option error) :=
  snd (snd (fst (retry attempts (observed function) (s, []) []))).

(** An attempt that failed with an error other than [mgo.ErrNotFound]. *)
Definition retriable (r : option error) : Prop :=
  exists e, r = Some e /\ is_ErrNotFound e = false.

(** The entries [retry] writes: one for a failed attempt that is followed
    by another, one when it gives up. *)
Definition retrying_entry (attempt : Z) (e : error) : LogEntry :=
  mkLogEntry [("reason", LText (error_text e)); ("attempt", LInt attempt)]
    "Mongo Error: Attempt failed. Retrying.".

Definition giving_up_entry (attempts : Z) (e : error) : LogEntry :=
  mkLogEntry [("reason", LText (error_text e)); ("attempt", LInt attempts)]
    "Mongo Error: Last attempt failed. Not retrying.".

(** What the end of [retry] adds to the log, by the result returned. *)
Definition closing_entries (attempts : Z) (err : option error)
    : list LogEntry :=
  match err with
  | Some e => if is_ErrNotFound e then [] else [giving_up_entry attempts e]
  | None => []
  end.

(** A text in double quotes, and a decoder that also knows the JSON
    string ["name"]. *)
Definition quoted (s : string) : string :=
  String (Ascii.ascii_of_nat 34) (s ++ String (Ascii.ascii_of_nat 34) "").

Definition sample_unmarshal_string (text : string) : value * option string :=
  if String.eqb text (quoted "name") then (VString "name", None)
  else sample_unmarshal text.

(** What the caller and the database see of a call: the response, the
    error and the driver's state, the log apart. *)
Definition answer {Conn A : Type}
    (o : outcome (A * option Error * World Conn))
    : outcome (A * option Error * Conn) :=
  match o with
  | Returned (response, err, w) => Returned (response, err, conn w)
  | Panicked reason => Panicked reason
  end.


(** * Properties *)

(** ** retry *)

Example retry_succeeds_on_second_attempt :
  retry 5 scripted [Some (ErrDriver "EOF"); None; Some (ErrDriver "EOF")] []
  = (None, [Some (ErrDriver "EOF")],
     [mkLogEntry [("reason", LText "EOF"); ("attempt", LInt 1)]
        "Mongo Error: Attempt failed. Retrying."]).
Proof. reflexivity. Qed.

Example retry_gives_up_after_five :
  let script := [Some (ErrDriver "e1"); Some (ErrDriver "e2");
                 Some (ErrDriver "e3"); Some (ErrDriver "e4");
                 Some (ErrDriver "e5"); None] in
  fst (retry 5 scripted script []) = (Some (ErrDriver "e5"), [None])
  /\ length (snd (retry 5 scripted script [])) = 5%nat.
Proof. split; reflexivity. Qed.

(** With no attempts asked for the closure is still called once. *)
Example retry_zero_attempts :
  attempts_made 0 scripted [Some (ErrDriver "EOF"); None]
  = [Some (ErrDriver "EOF")].
Proof. reflexivity. Qed.

(** One turn of the loop. *)
Lemma retry_loop_step {St : Type} attempts
    (function : St -> option error * St) i s log :
  retry_loop attempts function i s log =
  match function s with
  | (None, s') => (None, s', log)
  | (Some err, s') =>
      if is_ErrNotFound err then (Some err, s', log)
      else if Z_ge_dec i (sub64 attempts 1) then
        (Some err, s',
         (log ++ [mkLogEntry [("reason", LText (error_text err));
                              ("attempt", LInt attempts)]
                   "Mongo Error: Last attempt failed. Not retrying."])%list)
      else
        retry_loop attempts function (add64 i 1) s'
          (log ++ [mkLogEntry [("reason", LText (error_text err));
                               ("attempt", LInt (add64 i 1))]
                    "Mongo Error: Attempt failed. Retrying."])%list
  end.
Proof.
  simp retry_loop.
  destruct (function s) as [[err |] s']; simpl; [| reflexivity].
  destruct (is_ErrNotFound err); simpl; [reflexivity |].
  destruct (Z_ge_dec i (sub64 attempts 1)); reflexivity.
Qed.

Lemma sub64_le_maxInt a b : sub64 a b <= maxInt.
Proof.
  unfold sub64, wrap64, maxInt.
  pose proof (Z.mod_pos_bound (a - b + 2 ^ 63) (2 ^ 64)). lia.
Qed.

Lemma add64_succ i : minInt <= i < maxInt -> add64 i 1 = i + 1.
Proof.
  unfold add64, wrap64, minInt, maxInt. intros Hi.
  rewrite Z.mod_small by lia. lia.
Qed.

(** The loop on an observed closure: it makes the same calls as on the
    closure itself, every attempt but the last one failed with an error
    that is retried, and the last one is what is returned. *)
Lemma retry_loop_observed {St : Type} (n : nat) :
  forall attempts (function : St -> option error * St) i s made log,
    (Z.to_nat (sub64 attempts 1 - i) <= n)%nat ->
    minInt <= i ->
    exists pre err s' log',
      retry_loop attempts (observed function) i (s, made) log
      = (err, (s', (made ++ pre ++ [err])%list), log')
      /\ retry_loop attempts function i s log = (err, s', log')
      /\ Forall retriable pre
      /\ i + Z.of_nat (length pre) <= Z.max i (sub64 attempts 1)
      /\ (err = None \/ err = Some ErrNotFound
          \/ sub64 attempts 1 <= i + Z.of_nat (length pre)).
Proof.
  induction n as [| n IH]; intros attempts function i s made log Hn Hi.
  all: destruct (function s) as [r s1] eqn:Hcall.
  all: assert (Hobs : observed function (s, made)
                      = (r, (s1, (made ++ [r])%list)))
         by (unfold observed; simpl; now rewrite Hcall).
  all: rewrite (retry_loop_step attempts (observed function) i (s, made)),
         (retry_loop_step attempts function i s), Hobs, Hcall.
  all: destruct r as [[| reason] |]; simpl.
  all: try (exists [], (Some ErrNotFound), s1, log; simpl;
            repeat split; [constructor | lia | now right; left]).
  all: try (exists [], None, s1, log; simpl;
            repeat split; [constructor | lia | now left]).
  all: destruct (Z_ge_dec i (sub64 attempts 1)) as [Hge | Hlt].
  all: try (eexists [], (Some (ErrDriver reason)), s1, _; simpl;
            repeat split; [constructor | lia | right; right; lia]).
  - lia.
  - pose proof (sub64_le_maxInt attempts 1) as Hmax.
    rewrite add64_succ by lia.
    destruct (IH attempts function (i + 1) s1
                (made ++ [Some (ErrDriver reason)])%list
                (log ++ [mkLogEntry [("reason", LText reason);
                                     ("attempt", LInt (i + 1))]
                          "Mongo Error: Attempt failed. Retrying."])%list)
      as (pre & err & s' & log' & Hobs' & Hplain & Hpre & Hlen & Hlast);
      [lia | lia |].
    exists (Some (ErrDriver reason) :: pre), err, s', log'.
    rewrite Hobs', Hplain, <- !app_assoc. simpl.
    repeat split.
    + constructor; [| exact Hpre]. exists (ErrDriver reason). now split.
    + lia.
    + destruct Hlast as [-> | [-> | Hlast]]; [now left | now right; left |].
      right; right. lia.
Qed.

(** [retry] in terms of the attempts it makes. *)
Lemma retry_attempts {St : Type} attempts
    (function : St -> option error * St) s :
  exists pre err s' log',
    retry attempts function s [] = (err, s', log')
    /\ attempts_made attempts function s = (pre ++ [err])%list
    /\ Forall retriable pre
    /\ Z.of_nat (length pre) <= Z.max 0 (sub64 attempts 1)
    /\ (err = None \/ err = Some ErrNotFound
        \/ sub64 attempts 1 <= Z.of_nat (length pre)).
Proof.
  destruct (retry_loop_observed (Z.to_nat (sub64 attempts 1 - 0))
              attempts function 0 s [] [])
    as (pre & err & s' & log' & Hobs & Hplain & Hpre & Hlen & Hlast);
    [lia | unfold minInt; lia |].
  exists pre, err, s', log'. unfold attempts_made, retry.
  rewrite Hobs. simpl.
  split; [exact Hplain |]. split; [reflexivity |].
  split; [exact Hpre |]. split; [lia |].
  destruct Hlast as [Hnil | [Hnf | Hall]];
    [now left | now right; left | right; right; lia].
Qed.

(** C1 (amended).  [retry 5 function] makes at most five attempts.  Every
    attempt before the last one it makes failed with an error other than
    not-found, so it returns nil at the first attempt that succeeds and
    makes no attempt after it.  What it returns is the result of the last
    attempt made.  It returns a non-nil error only when that attempt failed
    with not-found or was the fifth one. *)
Theorem retry_five_attempts {St : Type}
    (function : St -> option error * St) (s : St) :
  exists pre err s' log,
    retry 5 function s [] = (err, s', log)
    /\ attempts_made 5 function s = (pre ++ [err])%list
    /\ Forall retriable pre
    /\ (length pre <= 4)%nat
    /\ (err = None \/ err = Some ErrNotFound \/ length pre = 4%nat).
Proof.
  destruct (retry_attempts 5 function s)
    as (pre & err & s' & log & Hret & Hmade & Hpre & Hlen & Hlast).
  change (sub64 5 1) with 4 in *.
  exists pre, err, s', log.
  split; [exact Hret |]. split; [exact Hmade |]. split; [exact Hpre |].
  split; [lia |].
  destruct Hlast as [Hnil | [Hnf | Hall]];
    [now left | now right; left | right; right; lia].
Qed.

(** C1, as stated, fails: a first attempt that fails with not-found ends
    the call with that error after one attempt, although the second
    attempt would have succeeded. *)
Lemma retry_not_found_before_five_attempts :
  retry 5 scripted [Some ErrNotFound; None] []
  = (Some ErrNotFound, [None], [])
  /\ attempts_made 5 scripted [Some ErrNotFound; None] = [Some ErrNotFound].
Proof. split; reflexivity. Qed.

(** C5.  Whatever the number of attempts asked for, an attempt of [retry]
    that fails with [mgo.ErrNotFound] is the last attempt made, and that
    error is what [retry] returns. *)
Theorem retry_not_found_is_last {St : Type} (attempts : Z)
    (function : St -> option error * St) (s : St) (k : nat) :
  attempts_made attempts function s !! k = Some (Some ErrNotFound) ->
  length (attempts_made attempts function s) = S k
  /\ fst (fst (retry attempts function s [])) = Some ErrNotFound.
Proof.
  destruct (retry_attempts attempts function s)
    as (pre & err & s' & log & Hret & Hmade & Hpre & _ & _).
  rewrite Hmade, Hret, length_app. simpl. intros Hk.
  destruct (decide (k < length pre)%nat) as [Hin | Hout].
  - rewrite lookup_app_l in Hk by exact Hin.
    rewrite Forall_forall in Hpre.
    apply list_elem_of_lookup_2, Hpre in Hk.
    destruct Hk as (e & [= <-] & Hnf). discriminate Hnf.
  - rewrite lookup_app_r in Hk by lia.
    destruct (k - length pre)%nat as [| m] eqn:Hm; simpl in Hk.
    + injection Hk as ->. split; [lia | reflexivity].
    + discriminate Hk.
Qed.

Lemma retry_not_found_is_last_witness :
  attempts_made 5 scripted [Some (ErrDriver "EOF"); Some ErrNotFound; None]
    !! 1%nat = Some (Some ErrNotFound)
  /\ length (attempts_made 5 scripted
               [Some (ErrDriver "EOF"); Some ErrNotFound; None]) = 2%nat
  /\ fst (fst (retry 5 scripted
                 [Some (ErrDriver "EOF"); Some ErrNotFound; None] []))
     = Some ErrNotFound.
Proof.
  split; [reflexivity |].
  apply (retry_not_found_is_last 5 scripted
           [Some (ErrDriver "EOF"); Some ErrNotFound; None] 1).
  reflexivity.
Defined.

(** ** Parameter extraction *)

Section ExtractionFacts.
Variable json_unmarshal : string -> value * option string.
Variable int_of_unrepresentable : spec_float -> Z.

(** The start of the three helpers: the key is looked up and the first
    text of its list is taken.  What is left is the case of a key that is
    given with a list that has a first text. *)
Ltac first_text parameters key :=
  unfold lookup_parameter;
  destruct (parameters !! key) as [paramArray |]; [| discriminate];
  destruct (slice_first paramArray) as [text |]; simpl; [| discriminate].

(** Every error of the three helpers is a bad-request error. *)
Lemma extractJsonParameter_error_code parameters key value hasParam e :
  extractJsonParameter json_unmarshal parameters key
  = Returned (value, hasParam, Some e) ->
  Code e = StatusBadRequest.
Proof.
  unfold extractJsonParameter. first_text parameters key.
  destruct (json_unmarshal text) as [v [reason |]]; [| discriminate].
  intros [= _ _ <-]. reflexivity.
Qed.

Lemma extractStringParameter_error_code parameters key value hasParam e :
  extractStringParameter json_unmarshal parameters key
  = Returned (value, hasParam, Some e) ->
  Code e = StatusBadRequest.
Proof.
  unfold extractStringParameter. first_text parameters key.
  destruct (json_unmarshal text) as [v [reason |]];
    destruct v; simpl; try discriminate; intros [= _ _ <-]; reflexivity.
Qed.

Lemma extractIntParameter_error_code parameters key value hasParam e :
  extractIntParameter json_unmarshal int_of_unrepresentable parameters key
  = Returned (value, hasParam, Some e) ->
  Code e = StatusBadRequest.
Proof.
  unfold extractIntParameter. first_text parameters key.
  destruct (json_unmarshal text) as [v [reason |]];
    destruct v; simpl; try discriminate; intros [= _ _ <-]; reflexivity.
Qed.



End ExtractionFacts.



(** ** The data provider *)

Section ProviderFacts.
Context {Conn : Type} `{Driver Conn}.
Variable json_unmarshal : string -> value * option string.
Variable int_of_unrepresentable : spec_float -> Z.


(** C3 (amended).  Take a call of [Query] that is not refused for giving
    both [where] and [aggregate] and in which the five extractions return.
    If some of them failed, the error of [Query] is the bad-request error
    of the last one that failed, in the order aggregate, where, sort,
    limit, skip; the driver is not called. *)
Theorem Query_surfaces_last_failure collection
    (parameters : gmap string string_slice) (w : World Conn)
    whereParam hasWhereParam whereParamErr
    aggregateParam hasAggregateParam aggregateParamErr
    sortParam hasSortParam sortParamErr
    limitParam hasLimitParam limitParamErr
    skipParam hasSkipParam skipParamErr (j : nat) (e : Error) :
  parameters !! "where" = None \/ parameters !! "aggregate" = None ->
  extractJsonParameter json_unmarshal parameters "where"
  = Returned (whereParam, hasWhereParam, whereParamErr) ->
  extractJsonParameter json_unmarshal parameters "aggregate"
  = Returned (aggregateParam, hasAggregateParam, aggregateParamErr) ->
  extractStringParameter json_unmarshal parameters "sort"
  = Returned (sortParam, hasSortParam, sortParamErr) ->
  extractIntParameter json_unmarshal int_of_unrepresentable parameters "limit"
  = Returned (limitParam, hasLimitParam, limitParamErr) ->
  extractIntParameter json_unmarshal int_of_unrepresentable parameters "skip"
  = Returned (skipParam, hasSkipParam, skipParamErr) ->
  [aggregateParamErr; whereParamErr; sortParamErr; limitParamErr;
   skipParamErr] !! j = Some (Some e) ->
  Forall (fun later => later = None)
    (drop (S j) [aggregateParamErr; whereParamErr; sortParamErr;
                 limitParamErr; skipParamErr]) ->
  Query json_unmarshal int_of_unrepresentable collection parameters w
  = Returned (Some ∅, Some e, w)
  /\ Code e = StatusBadRequest.
Proof.
  intros Hone Hwhere Haggregate Hsort Hlimit Hskip Hj Hlater.
  assert (Hcode : Code e = StatusBadRequest).
  { destruct j as [| [| [| [| [| j]]]]]; simpl in Hj;
      try discriminate Hj; injection Hj as ->.
    - exact (extractJsonParameter_error_code _ _ _ _ _ _ Haggregate).
    - exact (extractJsonParameter_error_code _ _ _ _ _ _ Hwhere).
    - exact (extractStringParameter_error_code _ _ _ _ _ _ Hsort).
    - exact (extractIntParameter_error_code _ _ _ _ _ _ _ Hlimit).
    - exact (extractIntParameter_error_code _ _ _ _ _ _ _ Hskip). }
  split; [| exact Hcode].
  unfold Query.
  assert (Hguard : slice_not_nil (default NilSlice (parameters !! "aggregate"))
                   && slice_not_nil (default NilSlice (parameters !! "where"))
                   = false).
  { destruct Hone as [-> | ->]; simpl; [apply andb_false_r | reflexivity]. }
  rewrite Hguard, Hwhere. simpl. rewrite Haggregate. simpl.
  rewrite Hsort. simpl. rewrite Hlimit. simpl. rewrite Hskip. simpl.
  destruct j as [| [| [| [| [| j]]]]]; simpl in Hj, Hlater;
    try discriminate Hj; injection Hj as ->.
  all: repeat match goal with
         | Hl : Forall _ (_ :: _) |- _ =>
             apply Forall_cons in Hl; destruct Hl as [-> Hl]
         end.
  all: reflexivity.
Qed.

(** The copying loop of [Update]: the fields of [data] over those of the
    record found. *)
Lemma merge_lookup (data object : gmap string value) (k : string) :
  map_fold (fun k v object => <[k := v]> object) object data !! k
  = match data !! k with
    | Some v => Some v
    | None => object !! k
    end.
Proof.
  revert k.
  apply (map_fold_weak_ind
           (fun merged (data : gmap string value) =>
              forall k, merged !! k = match data !! k with
                                      | Some v => Some v
                                      | None => object !! k
                                      end)).
  - intros k. rewrite lookup_empty. reflexivity.
  - intros i x m merged Hfresh IH k.
    destruct (decide (i = k)) as [-> | Hne].
    + rewrite !lookup_insert_eq. reflexivity.
    + rewrite !lookup_insert_ne by exact Hne. apply IH.
Qed.

(** C4 (amended).  Take an [Update] with a body that is not nil which
    finds the record and succeeds.  The record it hands to the driver has,
    for every field but [updatedAt], the value of the body where the body
    has the field and the value of the record found where it has not; its
    [updatedAt] is the time of the call in seconds, as an [int32], and
    this is also what the response carries. *)
Theorem Update_merges_and_stamps env collection id (data : gmap string value)
    (existing : gmap string value) (w : World Conn) c response w' :
  FindId_One collection id (conn w) = (inr existing, c) ->
  Update env collection id (Some data) w = Returned (response, None, w') ->
  exists written : gmap string value,
    UpdateId collection id written c = (None, conn w')
    /\ (forall k, k <> UpdatedAt ->
                  written !! k = match data !! k with
                                 | Some v => Some v
                                 | None => existing !! k
                                 end)
    /\ written !! UpdatedAt = Some (VInt32 (int32_of_int (now_unix env)))
    /\ response
       = Some {[UpdatedAt := VInt32 (int32_of_int (now_unix env))]}.
Proof.
  intros Hfind. unfold Update. rewrite Hfind.
  set (stamped := <[UpdatedAt := VInt32 (int32_of_int (now_unix env))]> data).
  set (written := map_fold (fun k v object => <[k := v]> object)
                    existing stamped).
  destruct (UpdateId collection id written c) as [[updateErr |] c'] eqn:Hupdate;
    [discriminate |].
  intros [= <- <-]. exists written.
  split; [exact Hupdate |].
  split; [| split].
  - intros k Hk. unfold written. rewrite merge_lookup. unfold stamped.
    rewrite lookup_insert_ne by congruence. reflexivity.
  - unfold written. rewrite merge_lookup. unfold stamped.
    rewrite lookup_insert_eq. reflexivity.
  - unfold stamped. rewrite lookup_insert_eq. reflexivity.
Qed.

(** C6.  A [Create] that succeeds answers with the [_id] of the input
    where the input has one and with the generated identifier otherwise,
    and with the same time in [createdAt] and [updatedAt]. *)
Theorem Create_response env collection data (w : World Conn) response w' :
  Create env collection data w = Returned (response, None, w') ->
  exists r : gmap string value,
    response = Some r
    /\ r !! ID = Some (match map_index data ID with
                       | Some id => id
                       | None => VString (new_object_id env)
                       end)
    /\ r !! CreatedAt = Some (VFloat64 (float64_of_int (now_unix env)))
    /\ r !! UpdatedAt = r !! CreatedAt.
Proof.
  unfold Create. destruct data as [data |]; [| discriminate].
  match goal with
  | |- context [retry 5 ?f ?c ?l] =>
      destruct (retry 5 f c l) as [[insertError c'] lg]
  end.
  destruct insertError as [e |]; [discriminate |].
  intros [= <- <-]. eexists. split; [reflexivity |].
  split; [| split].
  - rewrite lookup_insert_eq. simpl. f_equal.
    repeat (rewrite lookup_insert_ne by discriminate).
    destruct (data !! ID) as [id |] eqn:Hid.
    + rewrite bool_decide_eq_true_2 by eauto. rewrite Hid. reflexivity.
    + rewrite bool_decide_eq_false_2 by (intros [? ?]; discriminate).
      rewrite lookup_insert_eq. reflexivity.
  - rewrite lookup_insert_ne by discriminate.
    rewrite lookup_insert_eq. reflexivity.
  - repeat (rewrite lookup_insert_ne by discriminate).
    rewrite !lookup_insert_eq.
    rewrite lookup_insert_ne by discriminate.
    rewrite lookup_insert_eq. reflexivity.
Qed.


(** C9.  In both copies of the provider, [Delete] answers not-found
    whenever the driver's removal fails, whatever the error, and nothing
    otherwise; it never answers with a server error. *)
Theorem Delete_failure_is_not_found collection id (w : World Conn) :
  exists response err w' response2 err2 w2,
    Delete collection id w = Returned (response, err, w')
    /\ Plain.Delete collection id w = Returned (response2, err2, w2)
    /\ Code <$> err
       = match fst (RemoveId collection id (conn w)) with
         | Some _ => Some StatusNotFound
         | None => None
         end
    /\ Code <$> err2 = Code <$> err
    /\ Code <$> err <> Some StatusInternalServerError.
Proof.
  unfold Delete, Plain.Delete.
  destruct (RemoveId collection id (conn w)) as [[removeErr |] c];
    do 6 eexists; (split; [reflexivity |]); (split; [reflexivity |]);
    simpl; repeat split; discriminate.
Qed.

End ProviderFacts.

Example Query_no_match :
  Query sample_unmarshal amd64_unrepresentable "items"
    {["where" := Slice ["{}"]; "limit" := Slice ["5"]]} empty_world
  = Returned (Some {["results" := VMaps []]}, None, empty_world).
Proof. reflexivity. Qed.

Example Query_driver_down :
  Query sample_unmarshal amd64_unrepresentable "items" ∅
    (mkWorld (mkMemDB ∅ (replicate 5 (Some (ErrDriver "EOF")))) [])
  = Returned
      (Some ∅,
       Some (mkError 500 "Querying items from database failed. Reason: EOF"),
       mkWorld (mkMemDB ∅ [])
         (((fun attempt =>
              mkLogEntry [("reason", LText "EOF"); ("attempt", LInt attempt)]
                "Mongo Error: Attempt failed. Retrying.") <$> [1; 2; 3; 4])
          ++ [mkLogEntry [("reason", LText "EOF"); ("attempt", LInt 5)]
                "Mongo Error: Last attempt failed. Not retrying.";
              mkLogEntry [("reason", LText "EOF");
                          ("collection", LText "items");
                          ("parameters", LParameters ∅)]
                "Mongo Error: Querying items failed."])%list).
Proof. reflexivity. Qed.

Example Get_missing :
  Get "items" "a1" empty_world
  = Returned (None,
              Some (mkError 404 "'items' with id 'a1' not found."),
              mkWorld (mkMemDB ∅ [])
                [mkLogEntry [("reason", LText "not found");
                             ("collection", LText "items");
                             ("id", LText "a1")]
                   "Mongo Error: Getting item failed."]).
Proof. reflexivity. Qed.

Example Create_nil_panics :
  Create sample_env "items" None empty_world
  = Panicked "assignment to entry in nil map".
Proof. reflexivity. Qed.

(** A body that is a map without fields is not the nil map: it is not
    refused, and the record gets its new time stamp. *)
Example Update_no_fields :
  exists w,
    Update sample_env "items" "a1" (Some ∅)
      (mkWorld (mkMemDB {[("items", "a1") := {[ID := VString "a1"]}]} []) [])
    = Returned (Some {[UpdatedAt := VInt32 1700000000]}, None, w)
    /\ docs (conn w) !! ("items", "a1")
       = Some {[ID := VString "a1"; UpdatedAt := VInt32 1700000000]}.
Proof. eexists. split; reflexivity. Qed.



Lemma Query_surfaces_last_failure_witness :
  Query sample_unmarshal amd64_unrepresentable "items"
    {["sort" := Slice ["5"]; "limit" := Slice ["true"]]} empty_world
  = Returned (Some ∅,
              Some (mkError 400 "The key 'limit' must be an integer."),
              empty_world)
  /\ Code (mkError 400 "The key 'limit' must be an integer.")
     = StatusBadRequest.
Proof.
  apply (Query_surfaces_last_failure sample_unmarshal amd64_unrepresentable
           "items" {["sort" := Slice ["5"]; "limit" := Slice ["true"]]}
           empty_world
           VNil false None VNil false None
           "" true (Some (mkError 400 "The key 'sort' must be a valid string."))
           0 true (Some (mkError 400 "The key 'limit' must be an integer."))
           0 false None 3).
  - left. reflexivity.
  - reflexivity.
  - reflexivity.
  - reflexivity.
  - reflexivity.
  - reflexivity.
  - reflexivity.
  - simpl. repeat constructor.
Defined.

(** C3, as stated, fails: with a [sort] and a [limit] that both fail to
    parse, the error of [Query] is the one of [limit], not the one of
    [sort], which is extracted first. *)
Lemma Query_surfaces_limit_not_sort :
  extractStringParameter sample_unmarshal
    {["sort" := Slice ["5"]; "limit" := Slice ["true"]]} "sort"
  = Returned ("", true,
              Some (mkError 400 "The key 'sort' must be a valid string."))
  /\ extractIntParameter sample_unmarshal amd64_unrepresentable
       {["sort" := Slice ["5"]; "limit" := Slice ["true"]]} "limit"
     = Returned (0, true,
                 Some (mkError 400 "The key 'limit' must be an integer."))
  /\ Query sample_unmarshal amd64_unrepresentable "items"
       {["sort" := Slice ["5"]; "limit" := Slice ["true"]]} empty_world
     = Returned (Some ∅,
                 Some (mkError 400 "The key 'limit' must be an integer."),
                 empty_world).
Proof. repeat split; reflexivity. Qed.

Lemma Update_merges_and_stamps_witness :
  exists c response w',
    FindId_One "items" "a1"
      (mkMemDB {[("items", "a1") :=
                   {[ID := VString "a1"; "name" := VString "old";
                     "size" := VInt32 3; UpdatedAt := VInt32 100]}]} [])
    = (inr {[ID := VString "a1"; "name" := VString "old";
             "size" := VInt32 3; UpdatedAt := VInt32 100]}, c)
    /\ Update (mkEnv 200 "b2") "items" "a1" (Some {["name" := VString "new"]})
         (mkWorld
            (mkMemDB {[("items", "a1") :=
                         {[ID := VString "a1"; "name" := VString "old";
                           "size" := VInt32 3; UpdatedAt := VInt32 100]}]} [])
            [])
       = Returned (response, None, w')
    /\ exists written : gmap string value,
         UpdateId "items" "a1" written c = (None, conn w')
         /\ (forall k, k <> UpdatedAt ->
               written !! k
               = match ({["name" := VString "new"]} : gmap string value) !! k
                 with
                 | Some v => Some v
                 | None =>
                     ({[ID := VString "a1"; "name" := VString "old";
                        "size" := VInt32 3; UpdatedAt := VInt32 100]}
                        : gmap string value) !! k
                 end)
         /\ written !! UpdatedAt = Some (VInt32 (int32_of_int 200))
         /\ response = Some {[UpdatedAt := VInt32 (int32_of_int 200)]}.
Proof.
  do 3 eexists. split; [reflexivity |]. split; [reflexivity |].
  apply (Update_merges_and_stamps (mkEnv 200 "b2") "items" "a1"
           {["name" := VString "new"]}
           {[ID := VString "a1"; "name" := VString "old";
             "size" := VInt32 3; UpdatedAt := VInt32 100]}
           (mkWorld
              (mkMemDB {[("items", "a1") :=
                           {[ID := VString "a1"; "name" := VString "old";
                             "size" := VInt32 3; UpdatedAt := VInt32 100]}]} [])
              [])); reflexivity.
Defined.

(** C4, as stated, fails in two ways.  An update made in the second in
    which the record was created leaves [updatedAt] at the same time, not
    at a greater one; and a body that mentions [updatedAt] does not get its
    value written. *)
Lemma Update_same_second_not_greater :
  exists r1 w1 previous r2 w2 written old new,
    Create sample_env "items" (Some {["name" := VString "a"]}) empty_world
    = Returned (r1, None, w1)
    /\ docs (conn w1) !! ("items", "65544a00e1b2c3d4e5f60718") = Some previous
    /\ Update sample_env "items" "65544a00e1b2c3d4e5f60718"
         (Some {["name" := VString "b"; UpdatedAt := VInt32 5]}) w1
       = Returned (r2, None, w2)
    /\ docs (conn w2) !! ("items", "65544a00e1b2c3d4e5f60718") = Some written
    /\ previous !! UpdatedAt = Some old
    /\ written !! UpdatedAt = Some new
    /\ value_ltb old new = false
    /\ new <> VInt32 5.
Proof.
  do 8 eexists.
  split; [reflexivity |]. split; [reflexivity |].
  split; [reflexivity |]. split; [reflexivity |].
  split; [reflexivity |]. split; [reflexivity |].
  split; [reflexivity | discriminate].
Qed.

Lemma Create_response_witness :
  exists response w',
    Create sample_env "items" (Some {["name" := VString "a"]}) empty_world
    = Returned (response, None, w')
    /\ exists r : gmap string value,
         response = Some r
         /\ r !! ID
            = Some (match map_index (Some {["name" := VString "a"]}) ID with
                    | Some id => id
                    | None => VString (new_object_id sample_env)
                    end)
         /\ r !! CreatedAt
            = Some (VFloat64 (float64_of_int (now_unix sample_env)))
         /\ r !! UpdatedAt = r !! CreatedAt.
Proof.
  do 2 eexists. split; [reflexivity |].
  eapply (Create_response sample_env "items"
            (Some {["name" := VString "a"]}) empty_world).
  reflexivity.
Defined.

(** ** The input interceptor *)

Lemma ValidateInput_loop_spec fields body :
  match ValidateInput_loop fields body with
  | Some e =>
      Code e = StatusBadRequest
      /\ exists field,
           field ∈ fields
           /\ is_Some (map_index body field)
           /\ Message e = "Input cannot contain '" ++ field ++ "' field."
  | None => forall field, field ∈ fields -> map_index body field = None
  end.
Proof.
  induction fields as [| field fields IH]; simpl.
  - intros field Hin. inversion Hin.
  - destruct (decide (is_Some (map_index body field))) as [Hhas | Hnot].
    + rewrite bool_decide_eq_true_2 by exact Hhas. simpl.
      split; [reflexivity |]. exists field.
      split; [left |]. split; [exact Hhas | reflexivity].
    + rewrite bool_decide_eq_false_2 by exact Hnot.
      destruct (ValidateInput_loop fields body) as [e |].
      * destruct IH as (Hcode & other & Hin & Hhas & Hmsg).
        split; [exact Hcode |]. exists other.
        split; [right; exact Hin |]. split; [exact Hhas | exact Hmsg].
      * intros other Hin. apply elem_of_cons in Hin as [-> | Hin].
        -- destruct (map_index body field); [| reflexivity].
           exfalso. apply Hnot. eauto.
        -- apply IH, Hin.
Qed.

Example ValidateInput_ok :
  ValidateInput (Some {["name" := VString "a"]}) = None
  /\ ValidateInput None = None.
Proof. split; reflexivity. Qed.

Example ValidateInput_first_field :
  ValidateInput (Some {[UpdatedAt := VInt32 1; ID := VString "a1"]})
  = Some (mkError 400 "Input cannot contain '_id' field.").
Proof. reflexivity. Qed.

(** C8.  [ValidateInput] returns an error exactly when the body has one
    of the fields [_id], [createdAt], [updatedAt]; the error is a
    bad-request error and its message names such a field of the body. *)
Theorem ValidateInput_rejects_reserved (body : option (gmap string value)) :
  (is_Some (ValidateInput body)
   <-> exists field,
         field ∈ [ID; CreatedAt; UpdatedAt]
         /\ is_Some (map_index body field))
  /\ match ValidateInput body with
     | Some e =>
         Code e = 400
         /\ exists field,
              field ∈ [ID; CreatedAt; UpdatedAt]
              /\ is_Some (map_index body field)
              /\ Message e = "Input cannot contain '" ++ field ++ "' field."
     | None => True
     end.
Proof.
  unfold ValidateInput.
  pose proof (ValidateInput_loop_spec restrictedFields body) as Hspec.
  change [ID; CreatedAt; UpdatedAt] with restrictedFields.
  destruct (ValidateInput_loop restrictedFields body) as [e |].
  - destruct Hspec as (Hcode & field & Hin & Hhas & Hmsg).
    split; [| split; [exact Hcode | eauto]].
    split; [eauto | eauto].
  - split; [| exact I].
    split.
    + intros [e He]. discriminate He.
    + intros (field & Hin & [v Hhas]). rewrite (Hspec field Hin) in Hhas.
      discriminate Hhas.
Qed.

(** * Further properties *)

(** ** retry *)

(** The log of the loop: an entry for every failed attempt that is followed
    by another one, numbered from [i + 1], and the closing entries.  The
    observed closure gives the same run. *)
Lemma retry_loop_journal {St : Type} (n : nat) :
  forall attempts (function : St -> option error * St) i s made log log2,
    (Z.to_nat (sub64 attempts 1 - i) <= n)%nat ->
    minInt <= i ->
    exists failures err s',
      retry_loop attempts (observed function) i (s, made) log2
      = (err, (s', (made ++ (Some <$> failures) ++ [err])%list),
         (log2 ++ imap (fun k e => retrying_entry (i + Z.of_nat k + 1) e)
                    failures
               ++ closing_entries attempts err)%list)
      /\ retry_loop attempts function i s log
         = (err, s',
            (log ++ imap (fun k e => retrying_entry (i + Z.of_nat k + 1) e)
                      failures
                 ++ closing_entries attempts err)%list)
      /\ Forall (fun e => is_ErrNotFound e = false) failures.
Proof.
  induction n as [| n IH]; intros attempts function i s made log log2 Hn Hi.
  all: destruct (function s) as [r s1] eqn:Hcall.
  all: assert (Hobs : observed function (s, made)
                      = (r, (s1, (made ++ [r])%list)))
         by (unfold observed; simpl; now rewrite Hcall).
  all: rewrite (retry_loop_step attempts (observed function) i (s, made)),
         (retry_loop_step attempts function i s), Hobs, Hcall.
  all: destruct r as [[| reason] |]; simpl.
  all: try (exists [], (Some ErrNotFound), s1; simpl;
            rewrite !app_nil_r; repeat split; constructor).
  all: try (exists [], None, s1; simpl;
            rewrite !app_nil_r; repeat split; constructor).
  all: destruct (Z_ge_dec i (sub64 attempts 1)) as [Hge | Hlt].
  all: try (exists [], (Some (ErrDriver reason)), s1; simpl;
            repeat split; constructor).
  - lia.
  - pose proof (sub64_le_maxInt attempts 1) as Hmax.
    rewrite add64_succ by lia.
    destruct (IH attempts function (i + 1) s1
                (made ++ [Some (ErrDriver reason)])%list
                (log ++ [mkLogEntry [("reason", LText reason);
                                     ("attempt", LInt (i + 1))]
                          "Mongo Error: Attempt failed. Retrying."])%list
                (log2 ++ [mkLogEntry [("reason", LText reason);
                                      ("attempt", LInt (i + 1))]
                           "Mongo Error: Attempt failed. Retrying."])%list)
      as (failures & err & s' & Hobs' & Hplain & Hfail); [lia | lia |].
    exists (ErrDriver reason :: failures), err, s'.
    assert (Hentries :
              imap (fun k e => retrying_entry (i + 1 + Z.of_nat k + 1) e)
                failures
              = imap ((fun k e => retrying_entry (i + Z.of_nat k + 1) e) ∘ S)
                  failures).
    { apply imap_ext. intros k e _. simpl. f_equal. lia. }
    rewrite Hobs', Hplain, Hentries, imap_cons, fmap_cons, <- !app_assoc.
    change (Z.of_nat 0) with 0. rewrite Z.add_0_r.
    split; [reflexivity |]. split; [reflexivity |].
    constructor; [reflexivity | exact Hfail].
Qed.

(** X1.  For a number of attempts that is a valid [int] other than the
    least one, [retry] calls the closure at least once (even when no
    attempt is asked for) and at most [attempts] times when that is
    positive; every attempt before the last failed with an error that is
    retried, and a last attempt that failed with such an error is the
    [attempts]-th. *)
Theorem retry_attempts_bound {St : Type} (attempts : Z)
    (function : St -> option error * St) (s : St) :
  minInt < attempts <= maxInt ->
  exists pre err,
    attempts_made attempts function s = (pre ++ [err])%list
    /\ fst (fst (retry attempts function s [])) = err
    /\ Forall retriable pre
    /\ Z.of_nat (length pre) + 1 <= Z.max 1 attempts
    /\ (retriable err -> Z.of_nat (length pre) + 1 = Z.max 1 attempts).
Proof.
  intros Hrange.
  destruct (retry_attempts attempts function s)
    as (pre & err & s' & log & Hret & Hmade & Hpre & Hlen & Hlast).
  assert (Hsub : sub64 attempts 1 = attempts - 1).
  { unfold sub64, wrap64. unfold minInt, maxInt in Hrange.
    rewrite Z.mod_small by lia. lia. }
  rewrite Hsub in *.
  exists pre, err. rewrite Hret.
  split; [exact Hmade |]. split; [reflexivity |]. split; [exact Hpre |].
  split; [lia |].
  intros (e & -> & Hnf).
  destruct Hlast as [Hnil | [Hfound | Hall]];
    [discriminate Hnil | injection Hfound as ->; discriminate Hnf | lia].
Qed.

Lemma retry_attempts_bound_witness :
  minInt < 2 <= maxInt
  /\ exists pre err,
       attempts_made 2 scripted
         [Some (ErrDriver "EOF"); Some (ErrDriver "EOF"); None]
       = (pre ++ [err])%list
       /\ fst (fst (retry 2 scripted
                      [Some (ErrDriver "EOF"); Some (ErrDriver "EOF"); None]
                      [])) = err
       /\ Forall retriable pre
       /\ Z.of_nat (length pre) + 1 <= Z.max 1 2
       /\ (retriable err -> Z.of_nat (length pre) + 1 = Z.max 1 2).
Proof.
  assert (Hrange : minInt < 2 <= maxInt) by (unfold minInt, maxInt; lia).
  split; [exact Hrange |].
  exact (retry_attempts_bound 2 scripted
           [Some (ErrDriver "EOF"); Some (ErrDriver "EOF"); None] Hrange).
Defined.

(** X2.  What [retry] writes to the log, whatever was there before, is an
    entry numbered from 1 for every failed attempt that is followed by
    another one and, when the last attempt failed with an error other than
    not-found, a closing entry that carries the number of attempts asked
    for.  A call that succeeds at once or meets not-found at once writes
    nothing. *)
Theorem retry_journal {St : Type} (attempts : Z)
    (function : St -> option error * St) (s : St) (log : list LogEntry) :
  exists failures err s',
    retry attempts function s log
    = (err, s',
       (log ++ imap (fun k e => retrying_entry (Z.of_nat k + 1) e) failures
            ++ closing_entries attempts err)%list)
    /\ attempts_made attempts function s
       = ((Some <$> failures) ++ [err])%list
    /\ Forall (fun e => is_ErrNotFound e = false) failures.
Proof.
  destruct (retry_loop_journal (Z.to_nat (sub64 attempts 1 - 0))
              attempts function 0 s [] log [])
    as (failures & err & s' & Hobs & Hplain & Hfail);
    [lia | unfold minInt; lia |].
  exists failures, err, s'. unfold attempts_made, retry.
  rewrite Hobs, Hplain.
  split; [reflexivity |]. split; [reflexivity | exact Hfail].
Qed.

(** ** Parameter extraction *)

Section MoreExtractionFacts.
Variable json_unmarshal : string -> value * option string.
Variable int_of_unrepresentable : spec_float -> Z.

(** X3.  By the binding of the key, for the three helpers alike: a key
    that is not given yields the zero value, no parameter and no error; a
    key given with a first text yields a parameter; a key given with the
    nil list or with a list without texts makes the helper panic. *)
Theorem extraction_by_key (parameters : gmap string string_slice) key :
  match parameters !! key with
  | None =>
      extractJsonParameter json_unmarshal parameters key
      = Returned (VNil, false, None)
      /\ extractStringParameter json_unmarshal parameters key
         = Returned ("", false, None)
      /\ extractIntParameter json_unmarshal int_of_unrepresentable
           parameters key
         = Returned (0, false, None)
  | Some (Slice (text :: _)) =>
      (exists v e, extractJsonParameter json_unmarshal parameters key
                   = Returned (v, true, e))
      /\ (exists v e, extractStringParameter json_unmarshal parameters key
                      = Returned (v, true, e))
      /\ (exists v e, extractIntParameter json_unmarshal
                        int_of_unrepresentable parameters key
                      = Returned (v, true, e))
  | Some _ =>
      extractJsonParameter json_unmarshal parameters key
      = Panicked "index out of range"
      /\ extractStringParameter json_unmarshal parameters key
         = Panicked "index out of range"
      /\ extractIntParameter json_unmarshal int_of_unrepresentable
           parameters key
         = Panicked "index out of range"
  end.
Proof.
  unfold extractJsonParameter, extractStringParameter, extractIntParameter,
    lookup_parameter.
  destruct (parameters !! key) as [[| [| text rest]] |]; simpl;
    try (repeat split; reflexivity).
  destruct (json_unmarshal text) as [v [reason |]];
    (split; [eauto | split]); destruct v; simpl; eauto.
Qed.

(** X4.  Only the first text of a key is read: the further texts of the
    key and the other keys do not matter to the helpers. *)
Theorem extraction_reads_first_text (parameters : gmap string string_slice)
    key text rest :
  extractJsonParameter json_unmarshal
    (<[key := Slice (text :: rest)]> parameters) key
  = extractJsonParameter json_unmarshal {[key := Slice [text]]} key
  /\ extractStringParameter json_unmarshal
       (<[key := Slice (text :: rest)]> parameters) key
     = extractStringParameter json_unmarshal {[key := Slice [text]]} key
  /\ extractIntParameter json_unmarshal int_of_unrepresentable
       (<[key := Slice (text :: rest)]> parameters) key
     = extractIntParameter json_unmarshal int_of_unrepresentable
         {[key := Slice [text]]} key.
Proof.
  unfold extractJsonParameter, extractStringParameter, extractIntParameter,
    lookup_parameter.
  rewrite lookup_insert_eq, lookup_singleton_eq. repeat split; reflexivity.
Qed.

(** X5.  When the key is given and its first text decodes to a string,
    [extractStringParameter] yields that string, with the decoder's error
    if it reported one; when the text decodes to anything else, it yields
    the empty string and the bad-request error that the key must be a
    valid string. *)
Theorem extractStringParameter_string (parameters : gmap string string_slice)
    key text rest paramValue parseErr :
  parameters !! key = Some (Slice (text :: rest)) ->
  json_unmarshal text = (paramValue, parseErr) ->
  extractStringParameter json_unmarshal parameters key
  = match paramValue with
    | VString s =>
        Returned (s, true,
                  (fun reason =>
                     mkError 400
                       ("Parsing " ++ key ++ " parameter failed. Reason: "
                        ++ reason)) <$> parseErr)
    | _ =>
        Returned ("", true,
                  Some (mkError 400
                          ("The key '" ++ key ++ "' must be a valid string.")))
    end.
Proof.
  intros Hkey Hdecode.
  unfold extractStringParameter, lookup_parameter. rewrite Hkey. simpl.
  rewrite Hdecode.
  destruct paramValue; reflexivity.
Qed.

(** X6.  A first text that the decoder refuses, leaving nil: the helper for
    JSON values reports the decoder's reason, while the helpers for
    strings and integers report only that the key is of the wrong type. *)
Theorem extraction_of_refused_text (parameters : gmap string string_slice)
    key text rest reason :
  parameters !! key = Some (Slice (text :: rest)) ->
  json_unmarshal text = (VNil, Some reason) ->
  extractJsonParameter json_unmarshal parameters key
  = Returned (VNil, true,
              Some (mkError 400
                      ("Parsing " ++ key ++ " parameter failed. Reason: "
                       ++ reason)))
  /\ extractStringParameter json_unmarshal parameters key
     = Returned ("", true,
                 Some (mkError 400
                         ("The key '" ++ key ++ "' must be a valid string.")))
  /\ extractIntParameter json_unmarshal int_of_unrepresentable parameters key
     = Returned (0, true,
                 Some (mkError 400
                         ("The key '" ++ key ++ "' must be an integer."))).
Proof.
  intros Hkey Hdecode.
  unfold extractJsonParameter, extractStringParameter, extractIntParameter,
    lookup_parameter.
  rewrite Hkey. simpl. rewrite Hdecode. repeat split; reflexivity.
Qed.

End MoreExtractionFacts.

Lemma extractStringParameter_string_witness :
  ({["sort" := Slice [quoted "name"; "5"]]} : gmap string string_slice)
    !! "sort" = Some (Slice [quoted "name"; "5"])
  /\ sample_unmarshal_string (quoted "name") = (VString "name", None)
  /\ extractStringParameter sample_unmarshal_string
       {["sort" := Slice [quoted "name"; "5"]]} "sort"
     = Returned ("name", true, None).
Proof.
  split; [reflexivity |]. split; [reflexivity |].
  exact (extractStringParameter_string sample_unmarshal_string
           {["sort" := Slice [quoted "name"; "5"]]} "sort" (quoted "name")
           ["5"] (VString "name") None eq_refl eq_refl).
Defined.

Lemma extraction_of_refused_text_witness :
  ({["skip" := Slice ["1,5"]]} : gmap string string_slice) !! "skip"
  = Some (Slice ["1,5"])
  /\ sample_unmarshal "1,5" = (VNil, Some "invalid character")
  /\ extractJsonParameter sample_unmarshal {["skip" := Slice ["1,5"]]} "skip"
     = Returned (VNil, true,
                 Some (mkError 400
                         ("Parsing " ++ "skip"
                          ++ " parameter failed. Reason: "
                          ++ "invalid character")))
  /\ extractStringParameter sample_unmarshal {["skip" := Slice ["1,5"]]}
       "skip"
     = Returned ("", true,
                 Some (mkError 400
                         ("The key '" ++ "skip"
                          ++ "' must be a valid string.")))
  /\ extractIntParameter sample_unmarshal amd64_unrepresentable
       {["skip" := Slice ["1,5"]]} "skip"
     = Returned (0, true,
                 Some (mkError 400
                         ("The key '" ++ "skip" ++ "' must be an integer."))).
Proof.
  split; [reflexivity |]. split; [reflexivity |].
  exact (extraction_of_refused_text sample_unmarshal amd64_unrepresentable
           {["skip" := Slice ["1,5"]]} "skip" "1,5" [] "invalid character"
           eq_refl eq_refl).
Defined.

(** ** Query *)

Section QueryFacts.
Context {Conn : Type} `{Driver Conn}.
Variable json_unmarshal : string -> value * option string.
Variable int_of_unrepresentable : spec_float -> Z.





(** A parameter that was found has a list that is not nil. *)
Lemma extractJsonParameter_found parameters key v e :
  extractJsonParameter json_unmarshal parameters key = Returned (v, true, e) ->
  slice_not_nil (default NilSlice (parameters !! key)) = true.
Proof.
  unfold extractJsonParameter, lookup_parameter.
  destruct (parameters !! key) as [[| texts] |]; simpl;
    [discriminate | reflexivity | discriminate].
Qed.

(** X8.  The second test of [Query] for [where] together with
    [aggregate], the one that answers with a server error, is never the
    one that ends a call: when both parameters are found the first test
    has already refused the request.  This holds in both copies. *)
Theorem Query_second_guard_unreachable collection
    (parameters : gmap string string_slice) (w : World Conn) response w' :
  Query json_unmarshal int_of_unrepresentable collection parameters w
  <> Returned (response,
               Some (mkError 500
                       "Aggregation cannot be used with where parameter."),
               w')
  /\ Plain.Query json_unmarshal int_of_unrepresentable collection
       parameters w
     <> Returned (response,
                  Some (mkError 500
                          "Aggregation cannot be used with where parameter."),
                  w').
Proof.
  unfold Query, Plain.Query.
  destruct (slice_not_nil (default NilSlice (parameters !! "aggregate"))
            && slice_not_nil (default NilSlice (parameters !! "where")))
    eqn:Hguard; [split; discriminate |].
  destruct (extractJsonParameter json_unmarshal parameters "where")
    as [[[whereParam hasWhere] whereErr] | reason] eqn:Hwhere; simpl;
    [| split; discriminate].
  destruct (extractJsonParameter json_unmarshal parameters "aggregate")
    as [[[aggregateParam hasAggregate] aggregateErr] | reason] eqn:Haggregate;
    simpl; [| split; discriminate].
  destruct (extractStringParameter json_unmarshal parameters "sort")
    as [[[sortParam hasSort] sortErr] | reason] eqn:Hsort; simpl;
    [| split; discriminate].
  destruct (extractIntParameter json_unmarshal int_of_unrepresentable
              parameters "limit")
    as [[[limitParam hasLimit] limitErr] | reason] eqn:Hlimit; simpl;
    [| split; discriminate].
  destruct (extractIntParameter json_unmarshal int_of_unrepresentable
              parameters "skip")
    as [[[skipParam hasSkip] skipErr] | reason] eqn:Hskip; simpl;
    [| split; discriminate].
  destruct skipErr as [e |]; simpl.
  { split; intros [= _ -> _];
      discriminate (extractIntParameter_error_code _ _ _ _ _ _ _ Hskip). }
  destruct limitErr as [e |]; simpl.
  { split; intros [= _ -> _];
      discriminate (extractIntParameter_error_code _ _ _ _ _ _ _ Hlimit). }
  destruct sortErr as [e |]; simpl.
  { split; intros [= _ -> _];
      discriminate (extractStringParameter_error_code _ _ _ _ _ _ Hsort). }
  destruct whereErr as [e |]; simpl.
  { split; intros [= _ -> _];
      discriminate (extractJsonParameter_error_code _ _ _ _ _ _ Hwhere). }
  destruct aggregateErr as [e |]; simpl.
  { split; intros [= _ -> _];
      discriminate (extractJsonParameter_error_code _ _ _ _ _ _ Haggregate). }
  destruct hasWhere, hasAggregate; simpl.
  { rewrite (extractJsonParameter_found _ _ _ _ Hwhere),
      (extractJsonParameter_found _ _ _ _ Haggregate) in Hguard.
    discriminate Hguard. }
  all: split.
  all: try match goal with
         | |- context [retry 5 ?f ?c ?l] =>
             destruct (retry 5 f c l) as [[getErr [c' results]] lg]
         | |- context [Pipe_All ?a ?b ?c] =>
             destruct (Pipe_All a b c) as [[getErr | results] c']
         | |- context [Find_All ?a ?b ?c ?d ?e ?f] =>
             destruct (Find_All a b c d e f) as [[getErr | results] c']
         end.
  all: try destruct getErr; discriminate.
Qed.

(** X9.  With [aggregate] given and [where] not, the pipeline is run and
    [sort], [limit] and [skip] have no part in the answer: provided they
    parse, the response, the error and the driver's state are those of the
    call with the first text of [aggregate] alone. *)
Theorem Query_aggregate_ignores_find_parameters collection
    (parameters : gmap string string_slice) (w : World Conn) text rest
    sortParam hasSort limitParam hasLimit skipParam hasSkip :
  parameters !! "where" = None ->
  parameters !! "aggregate" = Some (Slice (text :: rest)) ->
  extractStringParameter json_unmarshal parameters "sort"
  = Returned (sortParam, hasSort, None) ->
  extractIntParameter json_unmarshal int_of_unrepresentable parameters "limit"
  = Returned (limitParam, hasLimit, None) ->
  extractIntParameter json_unmarshal int_of_unrepresentable parameters "skip"
  = Returned (skipParam, hasSkip, None) ->
  answer (Query json_unmarshal int_of_unrepresentable collection
            parameters w)
  = answer (Query json_unmarshal int_of_unrepresentable collection
              {["aggregate" := Slice [text]]} w).
Proof.
  intros Hwhere Haggregate Hsort Hlimit Hskip.
  unfold Query. rewrite Hsort, Hlimit, Hskip.
  unfold extractJsonParameter, extractStringParameter, extractIntParameter,
    lookup_parameter.
  rewrite Hwhere, Haggregate, lookup_singleton_eq,
    !lookup_singleton_ne by discriminate.
  simpl. destruct (json_unmarshal text) as [aggregateParam [reason |]]; simpl;
    [reflexivity |].
  match goal with
  | |- context [retry 5 ?f ?c ?l] =>
      destruct (retry 5 f c l) as [[getErr [c' results]] lg]
  end.
  destruct getErr; reflexivity.
Qed.

End QueryFacts.

Lemma Query_aggregate_ignores_find_parameters_witness :
  answer (Query sample_unmarshal_string amd64_unrepresentable "items"
            {["aggregate" := Slice ["[]"; "{}"];
              "sort" := Slice [quoted "name"];
              "limit" := Slice ["5"]]} empty_world)
  = answer (Query sample_unmarshal_string amd64_unrepresentable "items"
              {["aggregate" := Slice ["[]"]]} empty_world).
Proof.
  apply (Query_aggregate_ignores_find_parameters sample_unmarshal_string
           amd64_unrepresentable "items"
           {["aggregate" := Slice ["[]"; "{}"];
             "sort" := Slice [quoted "name"];
             "limit" := Slice ["5"]]} empty_world "[]" ["{}"]
           "name" true 5 true 0 false); reflexivity.
Defined.

(** ** Create and Get *)

(** What [retry] returns is what some call of the closure returned. *)
Lemma retry_loop_last_call {St : Type} (n : nat) :
  forall attempts (function : St -> option error * St) i s log,
    (Z.to_nat (sub64 attempts 1 - i) <= n)%nat ->
    minInt <= i ->
    exists s0, function s0 = fst (retry_loop attempts function i s log).
Proof.
  induction n as [| n IH]; intros attempts function i s log Hn Hi.
  all: rewrite retry_loop_step.
  all: destruct (function s) as [[e |] s1] eqn:Hcall;
    [| exists s; exact Hcall].
  all: destruct (is_ErrNotFound e); [exists s; exact Hcall |].
  all: destruct (Z_ge_dec i (sub64 attempts 1)) as [Hge | Hlt];
    [exists s; exact Hcall |].
  - lia.
  - pose proof (sub64_le_maxInt attempts 1) as Hmax.
    apply IH; rewrite add64_succ by lia; lia.
Qed.

Lemma retry_last_call {St : Type} attempts
    (function : St -> option error * St) s log :
  exists s0, function s0 = fst (retry attempts function s log).
Proof.
  apply (retry_loop_last_call (Z.to_nat (sub64 attempts 1 - 0)));
    [lia | unfold minInt; lia].
Qed.

(** A first attempt that succeeds or fails with not-found ends [retry]. *)
Lemma retry_first_attempt {St : Type} attempts
    (function : St -> option error * St) s log err s' :
  function s = (err, s') ->
  err = None \/ err = Some ErrNotFound ->
  retry attempts function s log = (err, s', log).
Proof.
  intros Hcall Herr. unfold retry. rewrite retry_loop_step, Hcall.
  destruct Herr as [-> | ->]; reflexivity.
Qed.

Section CreateGetFacts.
Context {Conn : Type} `{Driver Conn}.

(** X10.  A [Create] that fails answers with no response and a server
    error whose message is the text of the error of an insertion, the one
    that left the driver in its final state; a not-found error of the
    driver is reported in the same way. *)
Theorem Create_failure env collection data (w : World Conn) response e w' :
  Create env collection data w = Returned (response, Some e, w') ->
  response = None
  /\ Code e = 500
  /\ exists doc c0 insertError,
       Insert collection doc c0 = (Some insertError, conn w')
       /\ Message e = error_text insertError.
Proof.
  unfold Create. destruct data as [data |]; [| discriminate].
  match goal with
  | |- context [retry 5 ?f ?c ?l] =>
      destruct (retry_last_call 5 f c l) as [c0 Hlast];
      destruct (retry 5 f c l) as [[insertError c'] lg]
  end.
  simpl in Hlast.
  destruct insertError as [insertError |]; [| discriminate].
  intros [= <- <- <-]. split; [reflexivity |]. split; [reflexivity |].
  eexists _, c0, insertError. split; [exact Hlast | reflexivity].
Qed.

(** The document that a [Create] that succeeds has inserted. *)
Lemma Create_inserted env collection (data : gmap string value)
    (w : World Conn) (r : gmap string value) w' :
  Create env collection (Some data) w = Returned (Some r, None, w') ->
  exists (doc : gmap string value) c0,
    Insert collection doc c0 = (None, conn w')
    /\ doc !! ID = r !! ID
    /\ doc !! CreatedAt = r !! CreatedAt
    /\ doc !! UpdatedAt = r !! UpdatedAt
    /\ forall k, k <> ID -> k <> CreatedAt -> k <> UpdatedAt ->
                 doc !! k = data !! k.
Proof.
  unfold Create.
  match goal with
  | |- context [retry 5 ?f ?c ?l] =>
      destruct (retry_last_call 5 f c l) as [c0 Hlast];
      destruct (retry 5 f c l) as [[insertError c'] lg]
  end.
  simpl in Hlast.
  destruct insertError as [insertError |]; [discriminate |].
  intros [= <- <-]. eexists _, c0. split; [exact Hlast |].
  assert (Hid : is_Some ((if bool_decide (is_Some (data !! ID)) then data
                          else <[ID := VString (new_object_id env)]> data)
                           !! ID)).
  { destruct (data !! ID) as [id |] eqn:Hdata.
    - rewrite bool_decide_eq_true_2 by eauto. rewrite Hdata. eauto.
    - rewrite bool_decide_eq_false_2 by (intros [? ?]; discriminate).
      rewrite lookup_insert_eq. eauto. }
  destruct Hid as [id Hid].
  split; [| split; [| split]].
  - rewrite !lookup_insert_eq.
    repeat (rewrite lookup_insert_ne by discriminate).
    rewrite Hid. reflexivity.
  - rewrite (lookup_insert_ne _ ID CreatedAt) by discriminate.
    rewrite (lookup_insert_ne _ UpdatedAt CreatedAt) by discriminate.
    rewrite !lookup_insert_eq. reflexivity.
  - rewrite (lookup_insert_ne _ ID UpdatedAt) by discriminate.
    rewrite (lookup_insert_ne _ CreatedAt UpdatedAt) by discriminate.
    rewrite !lookup_insert_eq. reflexivity.
  - intros k Hk1 Hk2 Hk3.
    repeat (rewrite lookup_insert_ne by congruence).
    destruct (bool_decide (is_Some (data !! ID))); [reflexivity |].
    rewrite lookup_insert_ne by congruence. reflexivity.
Qed.

(** X11.  A [Create] that succeeds has handed to the driver, in the
    insertion that left the driver in its final state, a document with the
    three fields of the response and, for every other field, the value of
    the input: a [createdAt] or [updatedAt] of the input is replaced. *)
Theorem Create_stores env collection (data : gmap string value)
    (w : World Conn) (r : gmap string value) w' :
  Create env collection (Some data) w = Returned (Some r, None, w') ->
  exists (doc : gmap string value) c0,
    Insert collection doc c0 = (None, conn w')
    /\ doc !! ID = r !! ID
    /\ doc !! CreatedAt = r !! CreatedAt
    /\ doc !! UpdatedAt = r !! UpdatedAt
    /\ forall k, k <> ID -> k <> CreatedAt -> k <> UpdatedAt ->
                 doc !! k = data !! k.
Proof. apply Create_inserted. Qed.

(** A first lookup that finds the record ends [Get]. *)
Lemma Get_first_found collection id (w : World Conn) doc c :
  FindId_One collection id (conn w) = (inr doc, c) ->
  Get collection id w = Returned (Some doc, None, mkWorld c (journal w)).
Proof.
  intros Hfind. unfold Get.
  rewrite (retry_first_attempt 5 _ _ _ None (c, doc));
    [reflexivity | simpl; rewrite Hfind; reflexivity | left; reflexivity].
Qed.


(** X13.  A lookup that fails once with an error other than not-found and
    then finds the record: [Get] answers with the record, having logged
    the failed attempt, while the copy without retries answers
    not-found. *)
Theorem Get_after_transient_failure collection id (w : World Conn)
    reason c1 doc c2 :
  FindId_One collection id (conn w) = (inl (ErrDriver reason), c1) ->
  FindId_One collection id c1 = (inr doc, c2) ->
  Get collection id w
  = Returned (Some doc, None,
              mkWorld c2
                (journal w ++ [retrying_entry 1 (ErrDriver reason)])%list)
  /\ Plain.Get collection id w
     = Returned (None,
                 Some (mkError 404 ("Object from '" ++ collection
                                    ++ "' with id '" ++ id ++ "' not found.")),
                 mkWorld c1 (journal w)).
Proof.
  intros Hfirst Hsecond. split.
  - unfold Get, retry. rewrite retry_loop_step. simpl. rewrite Hfirst. simpl.
    change (sub64 5 1) with 4. change (add64 0 1) with 1.
    destruct (Z_ge_dec 0 4) as [Hge | _]; [lia |].
    rewrite retry_loop_step. simpl. rewrite Hsecond. reflexivity.
  - unfold Plain.Get. rewrite Hfirst. reflexivity.
Qed.

(** X14.  A lookup that fails with not-found: both copies answer
    not-found after that one call, and [Get] logs the failure once. *)
Theorem Get_not_found collection id (w : World Conn) c :
  FindId_One collection id (conn w) = (inl ErrNotFound, c) ->
  Get collection id w
  = Returned (None,
              Some (mkError 404 ("'" ++ collection ++ "' with id '" ++ id
                                 ++ "' not found.")),
              mkWorld c
                (journal w
                 ++ [mkLogEntry [("reason", LText "not found");
                                 ("collection", LText collection);
                                 ("id", LText id)]
                       "Mongo Error: Getting item failed."])%list)
  /\ Plain.Get collection id w
     = Returned (None,
                 Some (mkError 404 ("Object from '" ++ collection
                                    ++ "' with id '" ++ id ++ "' not found.")),
                 mkWorld c (journal w)).
Proof.
  intros Hfind. split.
  - unfold Get.
    rewrite (retry_first_attempt 5 _ _ _ (Some ErrNotFound) (c, ∅));
      [reflexivity | simpl; rewrite Hfind; reflexivity | right; reflexivity].
  - unfold Plain.Get. rewrite Hfind. reflexivity.
Qed.

(** X15.  [Create] and then [Get].  Suppose the driver, in the state the
    creation leaves, finds under the new id the document whose insertion
    led to that state.  Then [Get] of that id answers, without logging,
    with a record that has the three fields of the response of [Create]
    and, for every other field, the value of the input. *)
Theorem Create_then_Get env collection (data : gmap string value)
    (w : World Conn) (r : gmap string value) id w1 :
  Create env collection (Some data) w = Returned (Some r, None, w1) ->
  r !! ID = Some (VString id) ->
  (forall (doc : gmap string value) c0,
     Insert collection doc c0 = (None, conn w1) ->
     doc !! ID = Some (VString id) ->
     exists c2, FindId_One collection id (conn w1) = (inr doc, c2)) ->
  exists (doc : gmap string value) w2,
    Get collection id w1 = Returned (Some doc, None, w2)
    /\ journal w2 = journal w1
    /\ doc !! ID = Some (VString id)
    /\ doc !! CreatedAt = r !! CreatedAt
    /\ doc !! UpdatedAt = r !! UpdatedAt
    /\ forall k, k <> ID -> k <> CreatedAt -> k <> UpdatedAt ->
                 doc !! k = data !! k.
Proof.
  intros Hcreate Hid Hlaw.
  destruct (Create_inserted _ _ _ _ _ _ Hcreate)
    as (doc & c0 & Hinsert & Hdoc & Hcreated & Hupdated & Hrest).
  rewrite Hid in Hdoc.
  destruct (Hlaw doc c0 Hinsert Hdoc) as [c2 Hfind].
  exists doc, (mkWorld c2 (journal w1)).
  split; [exact (Get_first_found _ _ _ _ _ Hfind) |].
  split; [reflexivity |]. split; [exact Hdoc |].
  split; [exact Hcreated |]. split; [exact Hupdated | exact Hrest].
Qed.

End CreateGetFacts.

Lemma Create_failure_witness :
  exists response e w',
    Create sample_env "items" (Some {["name" := VString "a"]})
      (mkWorld (mkMemDB ∅ (replicate 5 (Some (ErrDriver "EOF")))) [])
    = Returned (response, Some e, w')
    /\ response = None
    /\ Code e = 500
    /\ exists doc c0 insertError,
         Insert "items" doc c0 = (Some insertError, conn w')
         /\ Message e = error_text insertError.
Proof.
  do 3 eexists. split; [reflexivity |].
  eapply (Create_failure sample_env "items" (Some {["name" := VString "a"]})
            (mkWorld (mkMemDB ∅ (replicate 5 (Some (ErrDriver "EOF")))) [])).
  reflexivity.
Defined.

Lemma Create_stores_witness :
  exists r w',
    Create sample_env "items"
      (Some {["name" := VString "a"; CreatedAt := VInt32 1]}) empty_world
    = Returned (Some r, None, w')
    /\ exists (doc : gmap string value) c0,
         Insert "items" doc c0 = (None, conn w')
         /\ doc !! ID = r !! ID
         /\ doc !! CreatedAt = r !! CreatedAt
         /\ doc !! UpdatedAt = r !! UpdatedAt
         /\ forall k, k <> ID -> k <> CreatedAt -> k <> UpdatedAt ->
              doc !! k
              = ({["name" := VString "a"; CreatedAt := VInt32 1]}
                   : gmap string value) !! k.
Proof.
  do 2 eexists. split; [reflexivity |].
  eapply (Create_stores sample_env "items"
            {["name" := VString "a"; CreatedAt := VInt32 1]} empty_world).
  reflexivity.
Defined.

Lemma Get_after_transient_failure_witness :
  exists c1 doc c2,
    FindId_One "items" "a1"
      (mkMemDB {[("items", "a1") := {[ID := VString "a1"]}]}
         [Some (ErrDriver "EOF")])
    = (inl (ErrDriver "EOF"), c1)
    /\ FindId_One "items" "a1" c1 = (inr doc, c2)
    /\ Get "items" "a1"
         (mkWorld (mkMemDB {[("items", "a1") := {[ID := VString "a1"]}]}
                     [Some (ErrDriver "EOF")]) [])
       = Returned (Some doc, None,
                   mkWorld c2 ([] ++ [retrying_entry 1 (ErrDriver "EOF")])%list)
    /\ Plain.Get "items" "a1"
         (mkWorld (mkMemDB {[("items", "a1") := {[ID := VString "a1"]}]}
                     [Some (ErrDriver "EOF")]) [])
       = Returned (None,
                   Some (mkError 404 ("Object from '" ++ "items"
                                      ++ "' with id '" ++ "a1"
                                      ++ "' not found.")),
                   mkWorld c1 []).
Proof.
  do 3 eexists. split; [reflexivity |]. split; [reflexivity |].
  apply (Get_after_transient_failure "items" "a1"
           (mkWorld (mkMemDB {[("items", "a1") := {[ID := VString "a1"]}]}
                       [Some (ErrDriver "EOF")]) [])); reflexivity.
Defined.

Lemma Get_not_found_witness :
  FindId_One "items" "a1" (conn empty_world)
  = (inl ErrNotFound, mkMemDB ∅ [])
  /\ Get "items" "a1" empty_world
     = Returned (None,
                 Some (mkError 404 ("'" ++ "items" ++ "' with id '" ++ "a1"
                                    ++ "' not found.")),
                 mkWorld (mkMemDB ∅ [])
                   (journal empty_world
                    ++ [mkLogEntry [("reason", LText "not found");
                                    ("collection", LText "items");
                                    ("id", LText "a1")]
                          "Mongo Error: Getting item failed."])%list)
  /\ Plain.Get "items" "a1" empty_world
     = Returned (None,
                 Some (mkError 404 ("Object from '" ++ "items"
                                    ++ "' with id '" ++ "a1"
                                    ++ "' not found.")),
                 mkWorld (mkMemDB ∅ []) (journal empty_world)).
Proof.
  split; [reflexivity |].
  apply (Get_not_found "items" "a1" empty_world). reflexivity.
Defined.

(** The in-memory driver, with no fault waiting, finds what was
    inserted. *)
Lemma mem_finds_inserted collection id (doc : gmap string value) c0 c1 :
  Insert collection doc c0 = (None, c1) ->
  doc !! ID = Some (VString id) ->
  faults c1 = [] ->
  exists c2, FindId_One collection id c1 = (inr doc, c2).
Proof.
  simpl. unfold mem_Insert, mem_FindId_One, next_fault at 2.
  intros Hinsert Hid Hfaults.
  destruct (next_fault c0) as [[fault |] c]; [discriminate |].
  rewrite Hid in Hinsert.
  destruct (docs c !! (collection, id)); [discriminate |].
  injection Hinsert as <-. simpl in Hfaults. simpl. rewrite Hfaults.
  simpl. rewrite lookup_insert_eq. eauto.
Qed.

Lemma Create_then_Get_witness :
  exists r w1 (doc : gmap string value) w2,
    Create sample_env "items" (Some {["name" := VString "a"]}) empty_world
    = Returned (Some r, None, w1)
    /\ r !! ID = Some (VString "65544a00e1b2c3d4e5f60718")
    /\ Get "items" "65544a00e1b2c3d4e5f60718" w1
       = Returned (Some doc, None, w2)
    /\ doc !! "name" = Some (VString "a").
Proof.
  eassert (Hcreate :
             Create sample_env "items" (Some {["name" := VString "a"]})
               empty_world
             = Returned (Some _, None, _)) by reflexivity.
  destruct (Create_then_Get sample_env "items" {["name" := VString "a"]}
              empty_world _ "65544a00e1b2c3d4e5f60718" _ Hcreate eq_refl)
    as (doc & w2 & Hget & _ & _ & _ & _ & Hrest).
  { intros doc c0 Hinsert Hid.
    apply (mem_finds_inserted _ _ _ _ _ Hinsert Hid). reflexivity. }
  do 2 eexists. exists doc, w2.
  split; [exact Hcreate |]. split; [reflexivity |]. split; [exact Hget |].
  rewrite Hrest by discriminate. reflexivity.
Defined.

(** ** Update and the interceptor *)

(** A body that the interceptor lets through has none of the three
    fields. *)
Lemma ValidateInput_accepts (data : gmap string value) :
  ValidateInput (Some data) = None ->
  data !! ID = None /\ data !! CreatedAt = None /\ data !! UpdatedAt = None.
Proof.
  intros Hvalid.
  pose proof (ValidateInput_loop_spec restrictedFields (Some data)) as Hspec.
  unfold ValidateInput in Hvalid. rewrite Hvalid in Hspec.
  repeat split; apply Hspec; unfold restrictedFields;
    repeat (first [left | right]).
Qed.

(** The restricted field that the loop reports is the first one, in the
    order of the list, that the body has. *)
Lemma ValidateInput_loop_first fields body e :
  ValidateInput_loop fields body = Some e ->
  exists before field after,
    fields = (before ++ field :: after)%list
    /\ Forall (fun earlier => map_index body earlier = None) before
    /\ is_Some (map_index body field)
    /\ e = mkError 400 ("Input cannot contain '" ++ field ++ "' field.").
Proof.
  induction fields as [| field fields IH]; simpl; [discriminate |].
  destruct (decide (is_Some (map_index body field))) as [Hhas | Hnot].
  - rewrite bool_decide_eq_true_2 by exact Hhas. intros [= <-].
    exists [], field, fields. repeat split; [constructor | exact Hhas].
  - rewrite bool_decide_eq_false_2 by exact Hnot. intros Hrest.
    destruct (IH Hrest) as (before & f & after & -> & Hbefore & Hhas & ->).
    exists (field :: before), f, after.
    repeat split; [| exact Hhas].
    constructor; [| exact Hbefore].
    destruct (map_index body field); [| reflexivity].
    exfalso. apply Hnot. eauto.
Qed.

(** X16.  The error of [ValidateInput] names the first of [_id],
    [createdAt], [updatedAt], in this order, that the body has: the fields
    before it in this order are not in the body. *)
Theorem ValidateInput_names_first (body : option (gmap string value)) e :
  ValidateInput body = Some e ->
  exists before field after,
    [ID; CreatedAt; UpdatedAt] = (before ++ field :: after)%list
    /\ Forall (fun earlier => map_index body earlier = None) before
    /\ is_Some (map_index body field)
    /\ e = mkError 400 ("Input cannot contain '" ++ field ++ "' field.").
Proof. apply ValidateInput_loop_first. Qed.

Lemma ValidateInput_names_first_witness :
  ValidateInput (Some {[UpdatedAt := VInt32 1; CreatedAt := VInt32 2]})
  = Some (mkError 400 "Input cannot contain 'createdAt' field.")
  /\ exists before field after,
       [ID; CreatedAt; UpdatedAt] = (before ++ field :: after)%list
       /\ Forall (fun earlier =>
                    map_index
                      (Some {[UpdatedAt := VInt32 1; CreatedAt := VInt32 2]})
                      earlier = None) before
       /\ is_Some (map_index
                     (Some {[UpdatedAt := VInt32 1; CreatedAt := VInt32 2]})
                     field)
       /\ mkError 400 "Input cannot contain 'createdAt' field."
          = mkError 400 ("Input cannot contain '" ++ field ++ "' field.").
Proof.
  split; [reflexivity |].
  apply (ValidateInput_names_first
           (Some {[UpdatedAt := VInt32 1; CreatedAt := VInt32 2]})).
  reflexivity.
Defined.

Section UpdateFacts.
Context {Conn : Type} `{Driver Conn}.

(** X17.  When the lookup of [Update] fails, with not-found or with any
    other error, both copies answer not-found with no response; the
    lookup is not tried again, nothing is written and nothing is
    logged. *)
Theorem Update_lookup_failure env collection id (data : gmap string value)
    (w : World Conn) findErr c :
  FindId_One collection id (conn w) = (inl findErr, c) ->
  Update env collection id (Some data) w
  = Returned (None, Some (mkError 404 "Item not found."),
              mkWorld c (journal w))
  /\ Plain.Update env collection id (Some data) w
     = Returned (None, Some (mkError 404 "Item not found."),
                 mkWorld c (journal w)).
Proof.
  intros Hfind. unfold Update, Plain.Update. rewrite Hfind.
  split; reflexivity.
Qed.


(** X19.  Behind the interceptor the identifier is never the client's: a
    [Create] of a body that [ValidateInput] lets through answers, when it
    succeeds, with the generated identifier. *)
Theorem validated_Create_generates_id env collection
    (data : gmap string value) (w : World Conn) response w' :
  ValidateInput (Some data) = None ->
  Create env collection (Some data) w = Returned (response, None, w') ->
  exists r : gmap string value,
    response = Some r /\ r !! ID = Some (VString (new_object_id env)).
Proof.
  intros Hvalid. destruct (ValidateInput_accepts data Hvalid) as (Hid & _).
  unfold Create.
  match goal with
  | |- context [retry 5 ?f ?c ?l] =>
      destruct (retry 5 f c l) as [[insertError c'] lg]
  end.
  destruct insertError; [discriminate |].
  intros [= <- <-]. eexists. split; [reflexivity |].
  rewrite lookup_insert_eq.
  repeat (rewrite lookup_insert_ne by discriminate).
  rewrite bool_decide_eq_false_2
    by (rewrite Hid; intros [? ?]; discriminate).
  rewrite lookup_insert_eq. reflexivity.
Qed.

(** X20.  Behind the interceptor an [Update] that succeeds writes back a
    record with the value of the body for every field of the body and
    with the [_id] and the [createdAt] of the record found. *)
Theorem validated_Update_keeps_id_and_createdAt env collection id
    (data existing : gmap string value) (w : World Conn) c response w' :
  ValidateInput (Some data) = None ->
  FindId_One collection id (conn w) = (inr existing, c) ->
  Update env collection id (Some data) w = Returned (response, None, w') ->
  exists written : gmap string value,
    UpdateId collection id written c = (None, conn w')
    /\ written !! ID = existing !! ID
    /\ written !! CreatedAt = existing !! CreatedAt
    /\ forall k v, data !! k = Some v -> written !! k = Some v.
Proof.
  intros Hvalid Hfind.
  destruct (ValidateInput_accepts data Hvalid) as (Hid & Hcreated & Hupdated).
  unfold Update. rewrite Hfind.
  match goal with
  | |- context [UpdateId ?a ?b ?d ?c] =>
      set (written := d);
      destruct (UpdateId a b written c) as [[updateErr |] c'] eqn:Hupdate
  end; [discriminate |].
  intros [= <- <-]. exists written. split; [exact Hupdate |].
  unfold written. split; [| split].
  - rewrite merge_lookup, lookup_insert_ne by discriminate.
    rewrite Hid. reflexivity.
  - rewrite merge_lookup, lookup_insert_ne by discriminate.
    rewrite Hcreated. reflexivity.
  - intros k v Hk. rewrite merge_lookup.
    rewrite lookup_insert_ne by (intros <-; congruence).
    rewrite Hk. reflexivity.
Qed.

End UpdateFacts.

Lemma Update_lookup_failure_witness :
  FindId_One "items" "a1"
    (mkMemDB {[("items", "a1") := {[ID := VString "a1"]}]}
       [Some (ErrDriver "EOF")])
  = (inl (ErrDriver "EOF"),
     mkMemDB {[("items", "a1") := {[ID := VString "a1"]}]} [])
  /\ Update sample_env "items" "a1" (Some {["name" := VString "b"]})
       (mkWorld (mkMemDB {[("items", "a1") := {[ID := VString "a1"]}]}
                   [Some (ErrDriver "EOF")]) [])
     = Returned (None, Some (mkError 404 "Item not found."),
                 mkWorld
                   (mkMemDB {[("items", "a1") := {[ID := VString "a1"]}]} [])
                   [])
  /\ Plain.Update sample_env "items" "a1" (Some {["name" := VString "b"]})
       (mkWorld (mkMemDB {[("items", "a1") := {[ID := VString "a1"]}]}
                   [Some (ErrDriver "EOF")]) [])
     = Returned (None, Some (mkError 404 "Item not found."),
                 mkWorld
                   (mkMemDB {[("items", "a1") := {[ID := VString "a1"]}]} [])
                   []).
Proof.
  split; [reflexivity |].
  apply (Update_lookup_failure sample_env "items" "a1"
           {["name" := VString "b"]}
           (mkWorld (mkMemDB {[("items", "a1") := {[ID := VString "a1"]}]}
                       [Some (ErrDriver "EOF")]) [])
           (ErrDriver "EOF")).
  reflexivity.
Defined.

Lemma validated_Create_generates_id_witness :
  exists response w',
    ValidateInput (Some {["name" := VString "a"]}) = None
    /\ Create sample_env "items" (Some {["name" := VString "a"]}) empty_world
       = Returned (response, None, w')
    /\ exists r : gmap string value,
         response = Some r
         /\ r !! ID = Some (VString (new_object_id sample_env)).
Proof.
  do 2 eexists. split; [reflexivity |]. split; [reflexivity |].
  eapply (validated_Create_generates_id sample_env "items"
            {["name" := VString "a"]} empty_world); reflexivity.
Defined.

Lemma validated_Update_keeps_id_and_createdAt_witness :
  exists c response w',
    ValidateInput (Some {["name" := VString "new"]}) = None
    /\ FindId_One "items" "a1"
         (mkMemDB {[("items", "a1") :=
                      {[ID := VString "a1"; "name" := VString "old";
                        CreatedAt := VInt32 100; UpdatedAt := VInt32 100]}]}
            [])
       = (inr {[ID := VString "a1"; "name" := VString "old";
                CreatedAt := VInt32 100; UpdatedAt := VInt32 100]}, c)
    /\ Update (mkEnv 200 "b2") "items" "a1" (Some {["name" := VString "new"]})
         (mkWorld
            (mkMemDB {[("items", "a1") :=
                         {[ID := VString "a1"; "name" := VString "old";
                           CreatedAt := VInt32 100;
                           UpdatedAt := VInt32 100]}]} [])
            [])
       = Returned (response, None, w')
    /\ exists written : gmap string value,
         UpdateId "items" "a1" written c = (None, conn w')
         /\ written !! ID
            = ({[ID := VString "a1"; "name" := VString "old";
                 CreatedAt := VInt32 100; UpdatedAt := VInt32 100]}
                 : gmap string value) !! ID
         /\ written !! CreatedAt
            = ({[ID := VString "a1"; "name" := VString "old";
                 CreatedAt := VInt32 100; UpdatedAt := VInt32 100]}
                 : gmap string value) !! CreatedAt
         /\ forall k v,
              ({["name" := VString "new"]} : gmap string value) !! k = Some v ->
              written !! k = Some v.
Proof.
  do 3 eexists. split; [reflexivity |]. split; [reflexivity |].
  split; [reflexivity |].
  eapply (validated_Update_keeps_id_and_createdAt (mkEnv 200 "b2") "items"
           "a1" {["name" := VString "new"]}
           {[ID := VString "a1"; "name" := VString "old";
             CreatedAt := VInt32 100; UpdatedAt := VInt32 100]}
           (mkWorld
              (mkMemDB {[("items", "a1") :=
                           {[ID := VString "a1"; "name" := VString "old";
                             CreatedAt := VInt32 100;
                             UpdatedAt := VInt32 100]}]} [])
              [])); reflexivity.
Defined.

(** ** The two copies *)

Section CopiesFacts.
Context {Conn : Type} `{Driver Conn}.
Variable json_unmarshal : string -> value * option string.
Variable int_of_unrepresentable : spec_float -> Z.


End CopiesFacts.

(** ** Connection *)

(** A list of addresses without addresses is not the nil list: [Init]
    accepts it. *)
Example Init_no_addresses :
  snd (Init (mkDataProvider (Slice []) "db" "admin" "user" "secret"
               (None : option unit) zero_DialInfo)) = None
  /\ snd (Init (mkDataProvider NilSlice "db" "admin" "user" "secret"
                  (None : option unit) zero_DialInfo))
     = Some (mkError 500 "Database 'addresses' must be specified.").
Proof. split; reflexivity. Qed.

(** X22.  [Init] and then [Connect].  When [Init] succeeds the addresses
    are not nil and [Connect] dials them with the user name and the
    password of the provider and with [AuthDatabase], not [Database], as
    the database.  The provider keeps its fields and gets the session that
    the dialler returned, also when dialling failed; the error is a server
    error exactly when dialling failed, in both copies. *)
Theorem Init_then_Connect {Session : Type}
    (DialWithInfo : DialInfo -> option Session * option error)
    (ma ma1 : DataProvider Session) (log : list LogEntry) :
  Init ma = (ma1, None) ->
  let info := mkDialInfo (Addresses ma) (AuthDatabase ma) (Username ma)
                (Password ma) in
  let connected :=
    mkDataProvider (Addresses ma) (Database ma) (AuthDatabase ma)
      (Username ma) (Password ma) (fst (DialWithInfo info)) info in
  Addresses ma <> NilSlice
  /\ fst (fst (Connect DialWithInfo ma1 log)) = connected
  /\ Code <$> snd (fst (Connect DialWithInfo ma1 log))
     = (fun _ => 500) <$> snd (DialWithInfo info)
  /\ fst (Plain.Connect DialWithInfo ma1) = connected
  /\ Code <$> snd (Plain.Connect DialWithInfo ma1)
     = (fun _ => 500) <$> snd (DialWithInfo info).
Proof.
  unfold Init. destruct (Addresses ma) as [| addrs] eqn:Haddrs; simpl;
    [discriminate |].
  intros [= <-]. unfold Connect, Plain.Connect. simpl.
  destruct (DialWithInfo _) as [dialed [dialErr |]]; simpl;
    repeat split; discriminate.
Qed.

Lemma Init_then_Connect_witness :
  let ma := mkDataProvider (Slice ["db1:27017"]) "app" "admin" "user"
              "secret" (None : option unit) zero_DialInfo in
  let dial := fun info : DialInfo =>
                if String.eqb (DialDatabase info) "admin"
                then (Some tt, None)
                else (None, Some (ErrDriver "auth failed")) in
  Init ma = (fst (Init ma), None)
  /\ fst (fst (Connect dial (fst (Init ma)) []))
     = mkDataProvider (Slice ["db1:27017"]) "app" "admin" "user" "secret"
         (Some tt) (mkDialInfo (Slice ["db1:27017"]) "admin" "user" "secret")
  /\ snd (fst (Connect dial (fst (Init ma)) [])) = None.
Proof.
  intros ma dial. split; [reflexivity |].
  destruct (Init_then_Connect dial ma (fst (Init ma)) [] eq_refl)
    as (_ & Hprovider & Hcode & _).
  split; [exact Hprovider |].
  destruct (snd (fst (Connect dial (fst (Init ma)) []))); [| reflexivity].
  discriminate Hcode.
Defined.

(** ** Files *)

Section FilesFacts.
Context {Conn File Stream : Type} `{FileStore Conn File Stream}.



End FilesFacts.
